(** * Output buffering of the metrics agent: ring buffer and running output

    A shallow embedding of [internal/models/buffer.go] (the [Buffer] built on
    a buffered Go channel) and of [internal/models/running_output.go] (the
    [RunningOutput] that batches metrics, writes them to an output and keeps
    the batches that failed), followed by the properties of the two.

    The embedding is sequential: one goroutine runs the calls one after the
    other.  A call that would wait for ever on the channel is [Blocks], a
    run-time panic is [Panics]. *)

From stdpp Require Import base numbers option list strings gmap.

Local Open Scope Z_scope.

(** ** Go integers *)

Module GoInt.

(** [int] is taken as the 64-bit type, like [int64]. *)
Definition min_int : Z := - 2 ^ 63.
Definition max_int : Z := 2 ^ 63 - 1.

(** Two's complement wrap-around of a mathematical integer. *)
Definition wrap (z : Z) : Z := (z + 2 ^ 63) `mod` 2 ^ 64 - 2 ^ 63.

Definition in_range (z : Z) : Prop := min_int ≤ z ≤ max_int.

Definition add (a b : Z) : Z := wrap (a + b).
Definition sub (a b : Z) : Z := wrap (a - b).

(** [x++] *)
Definition incr (a : Z) : Z := add a 1.

End GoInt.

(** ** Outcome of a call *)

Inductive outcome (A : Type) : Type :=
  | Ok (a : A)      (* the call returns *)
  | Panics          (* run-time panic *)
  | Blocks.         (* the goroutine waits for ever *)
Arguments Ok {A} a.
Arguments Panics {A}.
Arguments Blocks {A}.

#[export] Instance outcome_ret : MRet outcome := λ A a, Ok a.
#[export] Instance outcome_bind : MBind outcome := λ A B f x,
  match x with
  | Ok a => f a
  | Panics => Panics
  | Blocks => Blocks
  end.

(** ** Package [telegraf]: what the two files use of it *)

Module telegraf.

(** Modelled from the spec: the value of a field, which the sources under
    study never inspect (the metric type lives in another package). *)
Inductive FieldValue : Type :=
  | IntField (i : Z)
  | StringField (s : string)
  | BoolField (b : bool).

(** Modelled from the spec: [telegraf.Metric], an immutable record of a
    name, a tag mapping, a field mapping and a timestamp, with its four
    accessors. *)
Record Metric : Type := mkMetric {
  Name : string;
  Tags : gmap string string;
  Fields : gmap string FieldValue;
  Time : Z;
}.

Definition error : Type := string.

(** Modelled from the spec: [telegraf.NewMetric], the constructor that
    builds a metric from name, tags, fields and time; it fails only on
    structurally invalid input, which cannot occur when the four come from
    a metric. *)
Definition NewMetric (name : string) (tags : gmap string string)
    (fields : gmap string FieldValue) (t : Z) : Metric * option error :=
  (mkMetric name tags fields t, None).

(** [telegraf.Output], of which only [Write] is called: the sink is an
    object of some type [O] whose [Write] takes a batch, may change the
    sink and returns an error or [nil]. *)
Class Output (O : Type) : Type :=
  Write : O → list Metric → O * option error.
#[global] Hint Mode Output ! : typeclass_instances.

End telegraf.

Abbreviation Metric := telegraf.Metric.
Abbreviation error := telegraf.error.

(** ** Buffered channels, as one goroutine sees them *)

Record chan : Type := mkChan {
  chan_cap : Z;
  chan_queue : list Metric;   (* oldest first *)
}.

(** [len(c)] *)
Definition chan_len (c : chan) : Z := Z.of_nat (length (chan_queue c)).

(** A [telegraf.Metric] is an interface value: two machine words. *)
Definition elem_size : Z := 16.

(** [make(chan telegraf.Metric, size)]: the run time panics on a negative
    size and on a size whose buffer, in bytes, overflows [uintptr].  (It
    also panics above the allocator's limit, which is lower, depends on the
    platform and is not modelled.) *)
Definition make_chan (size : Z) : outcome chan :=
  if bool_decide (size < 0 ∨ 2 ^ 64 ≤ elem_size * size) then Panics
  else Ok (mkChan size []).

(** [case c <- m:] of a [select] with a [default]: the send is taken only
    when it can proceed at once, which without a waiting receiver means that
    the queue has room. *)
Definition try_send (c : chan) (m : Metric) : option chan :=
  if bool_decide (chan_len c < chan_cap c)
  then Some (mkChan (chan_cap c) (chan_queue c ++ [m]))
  else None.

(** [c <- m] *)
Definition send (c : chan) (m : Metric) : outcome chan :=
  match try_send c m with
  | Some c' => Ok c'
  | None => Blocks
  end.

(** [<-c] *)
Definition recv (c : chan) : outcome (Metric * chan) :=
  match chan_queue c with
  | [] => Blocks
  | m :: q => Ok (m, mkChan (chan_cap c) q)
  end.

(** ** buffer.go *)

Record Buffer : Type := mkBuffer {
  buf : chan;
  drops : Z;   (* int64 *)
}.

Definition NewBuffer (size : Z) : outcome Buffer :=
  c ← make_chan size; Ok (mkBuffer c 0).

Definition IsEmpty (b : Buffer) : bool := bool_decide (chan_len (buf b) = 0).

Definition Len (b : Buffer) : Z := chan_len (buf b).

(** One round of the loop of [Add]. *)
Definition Add1 (m : Metric) (b : Buffer) : outcome Buffer :=
  match try_send (buf b) m with
  | Some c => Ok (mkBuffer c (drops b))
  | None =>
      let d := GoInt.incr (drops b) in
      '(_, c1) ← recv (buf b);
      c2 ← send c1 m;
      Ok (mkBuffer c2 d)
  end.

Fixpoint Add (metrics : list Metric) (b : Buffer) : outcome Buffer :=
  match metrics with
  | [] => Ok b
  | m :: rest => b' ← Add1 m b; Add rest b'
  end.

Definition min (a b : Z) : Z := if bool_decide (b < a) then b else a.

(** [out[i] = <-b.buf] for [i] from [0] to [n-1]; [todo] rounds are left. *)
Fixpoint Batch_loop (todo : nat) (c : chan) : outcome (list Metric * chan) :=
  match todo with
  | O => Ok ([], c)
  | S todo' =>
      '(m, c1) ← recv c;
      '(out, c2) ← Batch_loop todo' c1;
      Ok (m :: out, c2)
  end.

(** [make([]telegraf.Metric, n)] panics on a negative [n]. *)
Definition Batch (batchSize : Z) (b : Buffer) : outcome (list Metric * Buffer) :=
  let n := min (Len b) batchSize in
  if bool_decide (n < 0) then Panics
  else '(out, c) ← Batch_loop (Z.to_nat n) (buf b);
       Ok (out, mkBuffer c (drops b)).

(** ** The filter of an output *)

(** The [Filter] struct is declared in another file of the package; the
    fields that [AddMetric] reads are kept.  [ShouldMetricPass] is the
    filter's predicate on metrics, a black box here. *)
Record Filter : Type := mkFilter {
  IsActive : bool;
  ShouldMetricPass : Metric → bool;
  TagExclude : list string;
  TagInclude : list string;
}.

(** Modelled from the spec: [Filter.FilterTags], which rewrites a tag mapping
    per the inclusion and exclusion rules, [TagInclude] and [TagExclude]
    being sets of tag keys: with inclusion rules only the listed keys are
    kept, with exclusion rules the listed keys are removed. *)
Definition FilterTags (f : Filter) (tags : gmap string string)
    : gmap string string :=
  let tags1 :=
    if bool_decide (TagInclude f ≠ [])
    then filter (λ kv, kv.1 ∈ TagInclude f) tags
    else tags in
  if bool_decide (TagExclude f ≠ [])
  then filter (λ kv, kv.1 ∉ TagExclude f) tags1
  else tags1.

Record OutputConfig : Type := mkOutputConfig {
  OutputConfig_Name : string;
  OutputConfig_Filter : Filter;
}.

(** ** running_output.go *)

Definition DEFAULT_METRIC_BATCH_SIZE : Z := 1000.
Definition DEFAULT_METRIC_BUFFER_LIMIT : Z := 10000.

(** The two buffers of a running output: [metrics] and [failMetrics]. *)
Inductive bufname : Type := Primary | Failed.

(** What a call does to its collaborators, in order: the calls on the two
    buffers, the calls of the output's [Write] with what it answered, and the
    lines logged. *)
Inductive event : Type :=
  | EvAdd (which : bufname) (metrics : list Metric)
  | EvBatch (which : bufname) (batchSize : Z) (out : list Metric)
  | EvOutputWrite (batch : list Metric) (err : option error)
  | EvLog (count : Z) (name : string).

Section RunningOutput.

Context {O : Type} `{!telegraf.Output O}.

Record RunningOutput : Type := mkRunningOutput {
  Name : string;
  Output : O;
  Config : OutputConfig;
  Quiet : bool;
  MetricBufferLimit : Z;
  MetricBatchSize : Z;
  metrics : Buffer;
  failMetrics : Buffer;
}.

Definition set_Output (o : O) (ro : RunningOutput) : RunningOutput :=
  mkRunningOutput (Name ro) o (Config ro) (Quiet ro)
    (MetricBufferLimit ro) (MetricBatchSize ro) (metrics ro) (failMetrics ro).

Definition set_metrics (b : Buffer) (ro : RunningOutput) : RunningOutput :=
  mkRunningOutput (Name ro) (Output ro) (Config ro) (Quiet ro)
    (MetricBufferLimit ro) (MetricBatchSize ro) b (failMetrics ro).

Definition set_failMetrics (b : Buffer) (ro : RunningOutput) : RunningOutput :=
  mkRunningOutput (Name ro) (Output ro) (Config ro) (Quiet ro)
    (MetricBufferLimit ro) (MetricBatchSize ro) (metrics ro) b.

Definition buffer_of (which : bufname) (ro : RunningOutput) : Buffer :=
  match which with Primary => metrics ro | Failed => failMetrics ro end.

Definition set_buffer (which : bufname) : Buffer → RunningOutput → RunningOutput :=
  match which with Primary => set_metrics | Failed => set_failMetrics end.

Definition NewRunningOutput (name : string) (output : O)
    (conf : OutputConfig) (batchSize bufferLimit : Z)
    : outcome RunningOutput :=
  let bufferLimit :=
    if bool_decide (bufferLimit = 0) then DEFAULT_METRIC_BUFFER_LIMIT
    else bufferLimit in
  let batchSize :=
    if bool_decide (batchSize = 0) then DEFAULT_METRIC_BATCH_SIZE
    else batchSize in
  m ← NewBuffer batchSize;
  f ← NewBuffer bufferLimit;
  Ok (mkRunningOutput name output conf false bufferLimit batchSize m f).

(** *** Methods as state transformers

    A method of [*RunningOutput] takes the object before the call and
    gives, when it returns, its result, the object after the call and the
    events of the call. *)
Record Stage (A : Type) : Type := mkStage {
  run : RunningOutput → outcome (A * RunningOutput * list event);
}.
Arguments mkStage {A} _.
Arguments run {A} _ _.

#[export] Instance Stage_ret : MRet Stage := λ A a,
  mkStage (λ ro, Ok (a, ro, [])).

#[export] Instance Stage_bind : MBind Stage := λ A B f x,
  mkStage (λ ro,
    '(a, ro1, t1) ← run x ro;
    '(b, ro2, t2) ← run (f a) ro1;
    Ok (b, ro2, t1 ++ t2)).

(** Read a field of the receiver. *)
Definition gets {A} (f : RunningOutput → A) : Stage A :=
  mkStage (λ ro, Ok (f ro, ro, [])).

(** [x / y] and [x % y] on [int]: both panic on a zero divisor and
    truncate towards zero. *)
Definition quo (x y : Z) : Stage Z :=
  mkStage (λ ro,
    if bool_decide (y = 0) then Panics
    else Ok (GoInt.wrap (Z.quot x y), ro, [])).

Definition rem (x y : Z) : Stage Z :=
  mkStage (λ ro,
    if bool_decide (y = 0) then Panics else Ok (Z.rem x y, ro, [])).

(** [ro.metrics.Add(ms...)] and [ro.failMetrics.Add(ms...)] *)
Definition call_Add (which : bufname) (ms : list Metric) : Stage unit :=
  mkStage (λ ro,
    b ← Add ms (buffer_of which ro);
    Ok (tt, set_buffer which b ro, [EvAdd which ms])).

(** [ro.metrics.Batch(k)] and [ro.failMetrics.Batch(k)] *)
Definition call_Batch (which : bufname) (k : Z) : Stage (list Metric) :=
  mkStage (λ ro,
    '(out, b) ← Batch k (buffer_of which ro);
    Ok (out, set_buffer which b ro, [EvBatch which k out])).

(** [ro.Output.Write(ms)] *)
Definition call_Output_Write (ms : list Metric) : Stage (option error) :=
  mkStage (λ ro,
    let '(o, err) := telegraf.Write (Output ro) ms in
    Ok (err, set_Output o ro, [EvOutputWrite ms err])).

(** [log.Printf("Wrote %d metrics to output %s in %s\n", ...)]; the elapsed
    time is left out of the event. *)
Definition log_Wrote (count : Z) (name : string) : Stage unit :=
  mkStage (λ ro, Ok (tt, ro, [EvLog count name])).

Definition write (ms : list Metric) : Stage (option error) :=
  if bool_decide (Z.of_nat (length ms) = 0) then mret None
  else
    err ← call_Output_Write ms;
    match err with
    | None =>
        quiet ← gets Quiet;
        (if negb quiet
         then name ← gets Name; log_Wrote (Z.of_nat (length ms)) name
         else mret tt);;
        mret err
    | Some _ => mret err
    end.

(** The metric that [AddMetric] buffers once the filter let it pass. *)
Definition filtered_metric (f : Filter) (metric : Metric) : Metric :=
  if bool_decide (Z.of_nat (length (TagExclude f)) ≠ 0
                  ∨ Z.of_nat (length (TagInclude f)) ≠ 0)
  then
    let tags := FilterTags f (telegraf.Tags metric) in
    let fields := telegraf.Fields metric in
    let t := telegraf.Time metric in
    let name := telegraf.Name metric in
    (telegraf.NewMetric name tags fields t).1
  else metric.

(** Lines 83 to 90 of [AddMetric]: buffer the metric and send a batch when
    the buffer holds one. *)
Definition AddMetric_buffer (metric : Metric) : Stage unit :=
  call_Add Primary [metric];;
  n ← gets (λ ro, Len (metrics ro));
  size ← gets MetricBatchSize;
  if bool_decide (n = size) then
    batch ← call_Batch Primary size;
    err ← write batch;
    match err with
    | Some _ => call_Add Failed batch
    | None => mret tt
    end
  else mret tt.

Definition AddMetric (metric : Metric) : Stage unit :=
  conf ← gets Config;
  let f := OutputConfig_Filter conf in
  if IsActive f && negb (ShouldMetricPass f metric) then mret tt
  else AddMetric_buffer (filtered_metric f metric).

(** The indices [0, 1, ..., n-1] that [for i := 0; i < n; i++] visits
    ([i] and [n] are not assigned in the body). *)
Definition indices (n : Z) : list Z := Z.of_nat <$> seq 0 (Z.to_nat n).

(** The loop of [Write] over the batches of failed metrics; [batchSize] is
    the local variable that the last round overwrites. *)
Fixpoint Write_loop (idx : list Z) (nBatches bufLen batchSize : Z)
    : Stage unit :=
  match idx with
  | [] => mret tt
  | i :: rest =>
      batchSize ←
        (if bool_decide (i = GoInt.sub nBatches 1)
         then size ← gets MetricBatchSize; rem bufLen size
         else mret batchSize);
      (batch ← call_Batch Failed batchSize;
       err ← write batch;
       match err with
       | Some _ => call_Add Failed batch
       | None => mret tt
       end);;
      Write_loop rest nBatches bufLen batchSize
  end.

(** Lines 95 to 113 of [Write]: the failed metrics are tried again. *)
Definition Write_failed : Stage unit :=
  empty ← gets (λ ro, IsEmpty (failMetrics ro));
  if negb empty then
    bufLen ← gets (λ ro, Len (failMetrics ro));
    size ← gets MetricBatchSize;
    q ← quo bufLen size;
    let nBatches := GoInt.add q 1 in
    Write_loop (indices nBatches) nBatches bufLen size
  else mret tt.

(** Lines 115 to 121 of [Write]: one batch of the buffered metrics. *)
Definition Write_metrics : Stage (option error) :=
  size ← gets MetricBatchSize;
  batch ← call_Batch Primary size;
  err ← write batch;
  match err with
  | Some e => call_Add Failed batch;; mret (Some e)
  | None => mret None
  end.

Definition Write : Stage (option error) :=
  Write_failed;; Write_metrics.

(** Calls of [AddMetric] one after the other. *)
Fixpoint AddMetrics (ms : list Metric) : Stage unit :=
  match ms with
  | [] => mret tt
  | m :: rest => AddMetric m;; AddMetrics rest
  end.

End RunningOutput.

Arguments RunningOutput O : clear implicits.
Arguments Stage O : clear implicits.
Arguments mkStage {O A} _.
Arguments run {O A} _ _.

(** ** Vocabulary of the properties *)

(** Calls of [Add] one after the other. *)
Fixpoint Add_calls (calls : list (list Metric)) (b : Buffer) : outcome Buffer :=
  match calls with
  | [] => Ok b
  | ms :: rest => b' ← Add ms b; Add_calls rest b'
  end.

(** The last [cap] elements of [l], in the order of [l]. *)
Definition surviving (cap : Z) (l : list Metric) : list Metric :=
  drop (length l - Z.to_nat cap)%nat l.

(** The number of elements that [Add] of [n] metrics evicts from a queue of
    [len] elements and capacity [cap]. *)
Definition evictions (cap : Z) (len n : nat) : nat :=
  (len + n - Z.to_nat cap)%nat.

(** A buffer whose channel holds no more than its capacity, as every channel
    that [make] made does. *)
Definition buffer_ok (b : Buffer) : Prop :=
  0 < chan_cap (buf b) < 2 ^ 60 ∧ Len b ≤ chan_cap (buf b).

#[export] Instance bufname_eq_dec : EqDecision bufname.
Proof. solve_decision. Defined.

(** The batches that the calls of [Batch] on one buffer took, in order. *)
Definition batches_of (which : bufname) (t : list event) : list (list Metric) :=
  omap (λ e, match e with
             | EvBatch w _ out => if decide (w = which) then Some out else None
             | _ => None
             end) t.

(** The batches handed to the output's [Write], in order. *)
Definition output_writes (t : list event) : list (list Metric) :=
  omap (λ e, match e with EvOutputWrite b _ => Some b | _ => None end) t.

(** Every batch that the output refused is put into the buffer of failed
    metrics by the very next call. *)
Fixpoint requeued (t : list event) : Prop :=
  match t with
  | [] => True
  | EvOutputWrite batch (Some _) :: rest =>
      head rest = Some (EvAdd Failed batch) ∧ requeued rest
  | _ :: rest => requeued rest
  end.

(** What [NewRunningOutput] sets up and every method keeps: the capacities
    are the two configured sizes, the primary buffer is not full (it is
    emptied as soon as it holds a batch), the buffer of failed metrics holds
    no more than its capacity. *)
Definition stage_ok {O} (ro : RunningOutput O) : Prop :=
  chan_cap (buf (metrics ro)) = MetricBatchSize ro
  ∧ 0 < MetricBatchSize ro < 2 ^ 60
  ∧ Len (metrics ro) < MetricBatchSize ro
  ∧ chan_cap (buf (failMetrics ro)) = MetricBufferLimit ro
  ∧ 0 < MetricBufferLimit ro < 2 ^ 60
  ∧ Len (failMetrics ro) ≤ MetricBufferLimit ro.

(** The primary buffer after a batch of all its metrics was taken. *)
Definition emptied (b : Buffer) : Buffer :=
  mkBuffer (mkChan (chan_cap (buf b)) []) (drops b).

(** What one round of trying failed metrics again, or the whole loop, keeps
    and tells about its events. *)
Definition retry_post {O} (ro ro' : RunningOutput O) (t : list event) : Prop :=
  metrics ro' = metrics ro
  ∧ MetricBatchSize ro' = MetricBatchSize ro
  ∧ MetricBufferLimit ro' = MetricBufferLimit ro
  ∧ chan_cap (buf (failMetrics ro')) = chan_cap (buf (failMetrics ro))
  ∧ buffer_ok (failMetrics ro')
  ∧ batches_of Primary t = []
  ∧ requeued t
  ∧ Forall (λ b, b ≠ []) (output_writes t).

(** *** Outputs and metrics of the scenarios *)

(** An output whose [Write] always fails. *)
Inductive failing : Type := Failing.
#[export] Instance failing_Output : telegraf.Output failing :=
  λ o _, (o, Some "unreachable"%string).

(** An output that answers from a script, one entry per call of [Write], and
    succeeds once the script is used up. *)
Definition scripted : Type := list (option error).
#[export] Instance scripted_Output : telegraf.Output scripted :=
  λ o _, match o with [] => ([], None) | r :: o' => (o', r) end.

Definition sample (name : string) (tags : list (string * string)) : Metric :=
  telegraf.mkMetric name (list_to_map tags) {[ "value"%string := telegraf.IntField 1 ]} 0.

Definition no_filter : OutputConfig :=
  mkOutputConfig "out" (mkFilter false (λ _, true) [] []).

(** An active filter that lets nothing pass. *)
Definition rejecting : OutputConfig :=
  mkOutputConfig "out" (mkFilter true (λ _, false) [] []).

(** No metric filter, and the tag [host] excluded. *)
Definition exclude_host : OutputConfig :=
  mkOutputConfig "out" (mkFilter false (λ _, true) ["host"%string] []).

Definition m1 : Metric := sample "m1" [("host", "a"); ("region", "b")]%string.
Definition m2 : Metric := sample "m2" [("host", "a")]%string.
Definition m3 : Metric := sample "m3" []%string.
Definition m4 : Metric := sample "m4" [("region", "c")]%string.

(** A full buffer of capacity two. *)
Definition full2 : Buffer := mkBuffer (mkChan 2 [m1; m2]) 0.


(** A running output with an output that is down, and one whose output
    answers from a script; the counters of drops are 0. *)
Definition stage_of (conf : OutputConfig) (batchSize bufferLimit : Z)
    (primary failed : list Metric) : RunningOutput failing :=
  mkRunningOutput "out" Failing conf false bufferLimit batchSize
    (mkBuffer (mkChan batchSize primary) 0)
    (mkBuffer (mkChan bufferLimit failed) 0).

Definition scripted_stage (script : scripted) (batchSize bufferLimit : Z)
    (primary failed : list Metric) : RunningOutput scripted :=
  mkRunningOutput "out" script no_filter true bufferLimit batchSize
    (mkBuffer (mkChan batchSize primary) 0)
    (mkBuffer (mkChan bufferLimit failed) 0).

(** *** Vocabulary of the further properties *)

(** A call on a buffer, and calls one after the other (what [Batch] returns
    is not kept). *)
Inductive bufop : Type :=
  | OpAdd (ms : list Metric)
  | OpBatch (k : Z).

Fixpoint run_ops (ops : list bufop) (b : Buffer) : outcome Buffer :=
  match ops with
  | [] => Ok b
  | OpAdd ms :: rest => b' ← Add ms b; run_ops rest b'
  | OpBatch k :: rest => '(_, b') ← Batch k b; run_ops rest b'
  end.

Definition nonneg_batches (ops : list bufop) : Prop :=
  Forall (λ op, match op with OpBatch k => 0 ≤ k | OpAdd _ => True end) ops.



(** The batches that the output refused, in order. *)
Definition refused (t : list event) : list (list Metric) :=
  omap (λ e, match e with EvOutputWrite b (Some _) => Some b | _ => None end) t.

(** The lines logged, in order. *)
Definition logged (t : list event) : list (Z * string) :=
  omap (λ e, match e with EvLog n name => Some (n, name) | _ => None end) t.

(** The filter lets the metric pass (an inactive filter lets all pass). *)
Definition passes (f : Filter) (m : Metric) : bool :=
  negb (IsActive f && negb (ShouldMetricPass f m)).

(** The metrics that [AddMetric] hands to the primary buffer for the
    metrics [ms]: those that pass, with their tags filtered. *)
Definition admitted (f : Filter) (ms : list Metric) : list Metric :=
  filtered_metric f <$> filter (λ m, passes f m = true) ms.

(** Every answer recorded for a call of the output's [Write] is the answer
    that the output gives to that batch in some state. *)
Definition sink_answers (O : Type) `{!telegraf.Output O} (t : list event) : Prop :=
  Forall (λ e, match e with
               | EvOutputWrite b err => ∃ o : O, err = (telegraf.Write o b).2
               | _ => True
               end) t.

(** A running output whose batch size was set to 0 after it was made. *)
Definition zero_batch_stage : RunningOutput failing :=
  mkRunningOutput "out" Failing no_filter false 4 0
    (mkBuffer (mkChan 2 []) 0) (mkBuffer (mkChan 4 [m1]) 0).

(** An output whose [Write] takes every batch. *)
Inductive accepting : Type := Accepting.
#[export] Instance accepting_Output : telegraf.Output accepting :=
  λ o _, (o, None).

Definition accepting_stage (batchSize bufferLimit : Z)
    (primary failed : list Metric) : RunningOutput accepting :=
  mkRunningOutput "out" Accepting no_filter false bufferLimit batchSize
    (mkBuffer (mkChan batchSize primary) 0)
    (mkBuffer (mkChan bufferLimit failed) 0).

(** * Properties *)

(** ** Go integers *)

Lemma wrap_in_range z : GoInt.in_range z → GoInt.wrap z = z.
Proof.
  unfold GoInt.in_range, GoInt.wrap, GoInt.min_int, GoInt.max_int. intros Hz.
  rewrite Z.mod_small; lia.
Qed.

Lemma incr_no_overflow a :
  GoInt.min_int ≤ a < GoInt.max_int → GoInt.incr a = a + 1.
Proof.
  intros Ha. unfold GoInt.incr, GoInt.add. apply wrap_in_range.
  unfold GoInt.in_range, GoInt.min_int, GoInt.max_int in *. lia.
Qed.

Lemma incr_max_int : GoInt.incr GoInt.max_int = GoInt.min_int.
Proof. reflexivity. Qed.

Lemma iter_incr_no_overflow (k : nat) a :
  GoInt.min_int ≤ a → a + Z.of_nat k ≤ GoInt.max_int →
  Nat.iter k GoInt.incr a = a + Z.of_nat k.
Proof.
  induction k as [|k IH]; intros Hlo Hhi; simpl.
  - lia.
  - rewrite IH by lia. rewrite incr_no_overflow; lia.
Qed.

(** ** The channel and the buffer *)

Lemma min_spec a b : min a b = Z.min a b.
Proof. unfold min. case_bool_decide; lia. Qed.

Lemma Batch_loop_take (n : nat) cap (q : list Metric) :
  (n ≤ length q)%nat →
  Batch_loop n (mkChan cap q) = Ok (take n q, mkChan cap (drop n q)).
Proof.
  revert q. induction n as [|n IH]; intros q Hn.
  - by rewrite drop_0.
  - destruct q as [|m q]; simpl in Hn; [lia|].
    simpl. unfold recv. simpl. rewrite IH by lia. done.
Qed.

(** [Batch] with a batch size that is not negative returns: the result is
    the front of the queue, the rest stays, the counter is not touched. *)
Lemma Batch_spec (k : Z) (b : Buffer) :
  0 ≤ k →
  let n := Z.to_nat (Z.min (Len b) k) in
  Batch k b =
    Ok (take n (chan_queue (buf b)),
        mkBuffer (mkChan (chan_cap (buf b)) (drop n (chan_queue (buf b))))
                 (drops b)).
Proof.
  intros Hk n. unfold Batch. rewrite min_spec.
  assert (0 ≤ Len b) by (unfold Len, chan_len; lia).
  rewrite bool_decide_eq_false_2 by lia.
  destruct b as [[cap q] d]; simpl in *.
  rewrite Batch_loop_take; [done|].
  unfold Len, chan_len in *; simpl in *. lia.
Qed.

Lemma surviving_length cap l :
  0 ≤ cap → Z.of_nat (length (surviving cap l)) = Z.min (Z.of_nat (length l)) cap.
Proof. intros Hc. unfold surviving. rewrite length_drop. lia. Qed.

Lemma surviving_all cap l :
  Z.of_nat (length l) ≤ cap → surviving cap l = l.
Proof.
  intros Hl. unfold surviving.
  replace (length l - Z.to_nat cap)%nat with 0%nat by lia. apply drop_0.
Qed.

Lemma surviving_app cap l1 l2 :
  surviving cap (surviving cap l1 ++ l2) = surviving cap (l1 ++ l2).
Proof.
  unfold surviving.
  rewrite length_app, length_drop.
  set (k1 := (length l1 - Z.to_nat cap)%nat).
  rewrite <- (drop_app_le l1 l2 k1) by (subst k1; lia).
  rewrite drop_drop, length_app. f_equal. subst k1. lia.
Qed.


(** One insertion into a buffer that has room. *)
Lemma Add1_room m b :
  Len b < chan_cap (buf b) →
  Add1 m b = Ok (mkBuffer (mkChan (chan_cap (buf b)) (chan_queue (buf b) ++ [m]))
                          (drops b)).
Proof.
  intros Hlt. unfold Add1, try_send. fold (Len b).
  by rewrite bool_decide_eq_true_2.
Qed.

(** One insertion into a full buffer of positive capacity: the head goes,
    the counter is incremented. *)
Lemma Add1_full m b :
  0 < chan_cap (buf b) → Len b = chan_cap (buf b) →
  Add1 m b = Ok (mkBuffer (mkChan (chan_cap (buf b))
                                  (drop 1 (chan_queue (buf b)) ++ [m]))
                          (GoInt.incr (drops b))).
Proof.
  intros Hpos Hfull. unfold Add1, try_send. fold (Len b).
  rewrite bool_decide_eq_false_2 by lia.
  destruct b as [[cap q] d]. unfold Len, chan_len in *. simpl in *.
  destruct q as [|x q]; simpl in *; [lia|].
  unfold recv, send, try_send, chan_len; simpl.
  rewrite bool_decide_eq_true_2 by lia. done.
Qed.


Lemma Add_app l1 l2 b : Add (l1 ++ l2) b = b' ← Add l1 b; Add l2 b'.
Proof.
  revert b. induction l1 as [|m l1 IH]; intros b; simpl; [done|].
  destruct (Add1 m b) as [b1| |]; simpl; [apply IH|done|done].
Qed.

(** [Add] on a buffer of positive capacity returns; the buffer then holds
    the last [cap] elements of the old queue followed by the new metrics, and
    the counter went up once per evicted element. *)
Lemma Add_spec (ms : list Metric) (b : Buffer) :
  buffer_ok b →
  Add ms b =
    Ok (mkBuffer (mkChan (chan_cap (buf b))
                         (surviving (chan_cap (buf b)) (chan_queue (buf b) ++ ms)))
                 (Nat.iter (evictions (chan_cap (buf b))
                              (length (chan_queue (buf b))) (length ms))
                           GoInt.incr (drops b))).
Proof.
  revert b. induction ms as [|m ms IH]; intros [[cap q] d] [Hcap Hlen];
    unfold Len, chan_len in *; simpl in *.
  - rewrite app_nil_r, surviving_all by lia.
    unfold evictions. replace (_ - _)%nat with 0%nat by lia. done.
  - destruct (decide (Z.of_nat (length q) < cap)) as [Hlt|Hge].
    + rewrite Add1_room by (unfold Len, chan_len; simpl; lia). simpl.
      rewrite IH by
        (split; unfold Len, chan_len; simpl; [lia|rewrite length_app; simpl; lia]).
      simpl. rewrite <- app_assoc. simpl. do 3 f_equal.
      unfold evictions. rewrite length_app. simpl. f_equal. lia.
    + rewrite Add1_full by (unfold Len, chan_len; simpl; lia). simpl.
      assert (Hq : length q = Z.to_nat cap) by lia.
      rewrite IH; simpl.
      2:{ split; unfold Len, chan_len; simpl; [lia|].
          rewrite length_app, length_drop. simpl. lia. }
      f_equal. f_equal.
      * f_equal.
        assert (Hs : surviving cap (q ++ [m]) = drop 1 q ++ [m]).
        { unfold surviving. rewrite length_app. simpl.
          replace (length q + 1 - Z.to_nat cap)%nat with 1%nat by lia.
          rewrite drop_app_le by lia. done. }
        rewrite <- Hs, surviving_app, <- app_assoc. done.
      * unfold evictions. rewrite length_app, length_drop. simpl.
        replace (length q + S (length ms) - Z.to_nat cap)%nat
          with (S (length q - 1 + 1 + length ms - Z.to_nat cap))%nat by lia.
        rewrite Nat.iter_succ_r. done.
Qed.


Lemma NewBuffer_Ok size b :
  NewBuffer size = Ok b ↔
  0 ≤ size < 2 ^ 60 ∧ b = mkBuffer (mkChan size []) 0.
Proof.
  unfold NewBuffer, make_chan, elem_size. case_bool_decide; simpl.
  - split; [done|]. intros [? _]. lia.
  - split; [intros [= <-]; split; [lia|done]|]. by intros [_ ->].
Qed.

Lemma Add_calls_concat calls b : Add_calls calls b = Add (concat calls) b.
Proof.
  revert b. induction calls as [|ms calls IH]; intros b; simpl; [done|].
  rewrite Add_app. destruct (Add ms b); simpl; [apply IH|done|done].
Qed.








(** ** Running a method *)

(** Projections of a running output that was updated field by field. *)
Ltac simpl_ro :=
  cbn [buffer_of set_buffer set_metrics set_failMetrics set_Output
       metrics failMetrics MetricBatchSize MetricBufferLimit Output Quiet
       Name Config buf chan_cap chan_queue drops] in *.

Section Running.

Context {O : Type} `{!telegraf.Output O}.
Implicit Types (ro : RunningOutput O) (t : list event).

Lemma run_ret {A} (a : A) ro : run (mret a) ro = Ok (a, ro, []).
Proof. done. Qed.

Lemma run_gets_bind {A B} (f : RunningOutput O → A) (k : A → Stage O B) ro :
  run (gets f ≫= k) ro = run (k (f ro)) ro.
Proof.
  unfold mbind, Stage_bind. simpl.
  destruct (run (k (f ro)) ro) as [[[b ro2] t2]| |]; done.
Qed.

Lemma run_bind_Ok {A B} (x : Stage O A) (k : A → Stage O B) ro a ro1 t1 :
  run x ro = Ok (a, ro1, t1) →
  run (x ≫= k) ro = '(b, ro2, t2) ← run (k a) ro1; Ok (b, ro2, t1 ++ t2).
Proof. intros Hx. unfold mbind at 1, Stage_bind. simpl. by rewrite Hx. Qed.

Lemma run_call_Batch which k ro :
  0 ≤ k →
  let b := buffer_of which ro in
  let n := Z.to_nat (Z.min (Len b) k) in
  run (call_Batch which k) ro =
    Ok (take n (chan_queue (buf b)),
        set_buffer which
          (mkBuffer (mkChan (chan_cap (buf b)) (drop n (chan_queue (buf b))))
                    (drops b)) ro,
        [EvBatch which k (take n (chan_queue (buf b)))]).
Proof. intros Hk b n. unfold call_Batch. simpl. by rewrite Batch_spec. Qed.

Lemma run_call_Add which ms ro :
  buffer_ok (buffer_of which ro) →
  let b := buffer_of which ro in
  run (call_Add which ms) ro =
    Ok (tt,
        set_buffer which
          (mkBuffer (mkChan (chan_cap (buf b))
                            (surviving (chan_cap (buf b)) (chan_queue (buf b) ++ ms)))
                    (Nat.iter (evictions (chan_cap (buf b))
                                 (length (chan_queue (buf b))) (length ms))
                              GoInt.incr (drops b))) ro,
        [EvAdd which ms]).
Proof. intros Hok b. unfold call_Add. simpl. by rewrite Add_spec. Qed.

(** The shared write primitive on an empty batch. *)
Lemma run_write_nil ro : run (write []) ro = Ok (None, ro, []).
Proof. done. Qed.

(** The shared write primitive on a batch that is not empty. *)
Lemma run_write_cons ms ro :
  ms ≠ [] →
  run (write ms) ro =
    Ok ((telegraf.Write (Output ro) ms).2,
        set_Output (telegraf.Write (Output ro) ms).1 ro,
        EvOutputWrite ms (telegraf.Write (Output ro) ms).2 ::
        match (telegraf.Write (Output ro) ms).2 with
        | None =>
            if Quiet ro then []
            else [EvLog (Z.of_nat (length ms)) (Name ro)]
        | Some _ => []
        end).
Proof.
  intros Hms. unfold write.
  rewrite bool_decide_eq_false_2 by (destruct ms; simpl; [done|lia]).
  unfold mbind at 1, Stage_bind, call_Output_Write. simpl.
  destruct (telegraf.Write (Output ro) ms) as [o [e|]]; simpl; [done|].
  destruct (Quiet ro); done.
Qed.

End Running.

(** C7: the write primitive on an empty batch returns [nil], changes nothing
    and calls nothing, the output included; on a batch that is not empty and
    that the output refuses it returns the output's error after this one
    call, and the two buffers are as before (only the output itself may have
    changed). *)
Theorem C7_write_primitive {O : Type} `{!telegraf.Output O}
    (ro : RunningOutput O) :
  run (write []) ro = Ok (None, ro, [])
  ∧ ∀ (ms : list Metric) (o : O) (e : error),
      ms ≠ [] → telegraf.Write (Output ro) ms = (o, Some e) →
      run (write ms) ro =
        Ok (Some e, set_Output o ro, [EvOutputWrite ms (Some e)])
      ∧ metrics (set_Output o ro) = metrics ro
      ∧ failMetrics (set_Output o ro) = failMetrics ro.
Proof.
  split; [apply run_write_nil|]. intros ms o e Hms HW.
  rewrite run_write_cons by done. rewrite HW. done.
Qed.

Lemma C7_witness :
  ([m1] ≠ [] ∧ telegraf.Write Failing [m1] = (Failing, Some "unreachable"%string))
  ∧ ∀ ro : RunningOutput failing,
      Output ro = Failing →
      ∃ ro', run (write [m1]) ro =
               Ok (Some "unreachable"%string, ro',
                   [EvOutputWrite [m1] (Some "unreachable"%string)])
             ∧ metrics ro' = metrics ro ∧ failMetrics ro' = failMetrics ro.
Proof.
  split; [split; [discriminate|reflexivity]|].
  intros ro Ho. exists (set_Output Failing ro).
  apply (proj2 (C7_write_primitive ro) [m1] Failing "unreachable"%string).
  - discriminate.
  - rewrite Ho. reflexivity.
Defined.

(** C8: a metric that an active filter rejects leaves the running output as
    it was, both buffers with their queues and counters and the output
    included, and makes no call at all. *)
Theorem C8_rejected_metric_has_no_effect {O : Type} `{!telegraf.Output O}
    (ro : RunningOutput O) (metric : Metric) :
  IsActive (OutputConfig_Filter (Config ro)) = true →
  ShouldMetricPass (OutputConfig_Filter (Config ro)) metric = false →
  run (AddMetric metric) ro = Ok (tt, ro, []).
Proof.
  intros Ha Hp. unfold AddMetric. rewrite run_gets_bind. by rewrite Ha, Hp.
Qed.

Section AddMetric_facts.

Context {O : Type} `{!telegraf.Output O}.
Implicit Types (ro : RunningOutput O) (t : list event).

Lemma evictions_none cap (len n : nat) :
  Z.of_nat len + Z.of_nat n ≤ cap → evictions cap len n = 0%nat.
Proof. unfold evictions. lia. Qed.

Lemma run_call_Add_room which ms ro :
  let b := buffer_of which ro in
  0 < chan_cap (buf b) < 2 ^ 60 →
  Len b + Z.of_nat (length ms) ≤ chan_cap (buf b) →
  run (call_Add which ms) ro =
    Ok (tt,
        set_buffer which
          (mkBuffer (mkChan (chan_cap (buf b)) (chan_queue (buf b) ++ ms))
                    (drops b)) ro,
        [EvAdd which ms]).
Proof.
  intros b Hcap Hlen. unfold Len, chan_len in Hlen.
  rewrite run_call_Add by (unfold buffer_ok, Len, chan_len; fold b; lia).
  fold b. rewrite surviving_all by (rewrite length_app; lia).
  by rewrite evictions_none by lia.
Qed.

(** [AddMetric_buffer] when the metric does not complete a batch. *)
Lemma AddMetric_buffer_room m ro :
  stage_ok ro →
  Len (metrics ro) + 1 < MetricBatchSize ro →
  run (AddMetric_buffer m) ro =
    Ok (tt,
        set_metrics
          (mkBuffer (mkChan (MetricBatchSize ro)
                            (chan_queue (buf (metrics ro)) ++ [m]))
                    (drops (metrics ro))) ro,
        [EvAdd Primary [m]]).
Proof.
  intros (Hcap & Hsz & Hlen & _) Hroom. unfold AddMetric_buffer.
  erewrite run_bind_Ok; last first.
  { apply run_call_Add_room; simpl; lia. }
  rewrite !run_gets_bind. simpl_ro.
  rewrite bool_decide_eq_false_2.
  - rewrite Hcap. done.
  - unfold Len, chan_len in *. simpl_ro. rewrite length_app. simpl. lia.
Qed.

(** [AddMetric_buffer] when the metric completes a batch: the batch is the
    whole queue with the metric at its end, and it goes to the output. *)
Lemma AddMetric_buffer_batch m ro :
  stage_ok ro →
  Len (metrics ro) + 1 = MetricBatchSize ro →
  let batch := chan_queue (buf (metrics ro)) ++ [m] in
  let ro1 := set_metrics (emptied (metrics ro)) ro in
  run (AddMetric_buffer m) ro =
    '(err, ro2, t2) ← run (write batch) ro1;
    '(_, ro3, t3) ← run (match err with
                         | Some _ => call_Add Failed batch
                         | None => mret tt
                         end) ro2;
    Ok (tt, ro3,
        [EvAdd Primary [m]; EvBatch Primary (MetricBatchSize ro) batch]
        ++ t2 ++ t3).
Proof.
  intros (Hcap & Hsz & Hlen & _) Hfull batch ro1. unfold AddMetric_buffer.
  erewrite run_bind_Ok; last first.
  { apply run_call_Add_room; simpl; lia. }
  rewrite !run_gets_bind. simpl_ro.
  assert (Hb : Z.of_nat (length batch) = MetricBatchSize ro).
  { unfold batch, Len, chan_len in *. rewrite length_app. simpl. lia. }
  rewrite bool_decide_eq_true_2 by (unfold Len, chan_len; simpl_ro; apply Hb).
  erewrite run_bind_Ok; last first.
  { apply run_call_Batch. lia. }
  simpl_ro. fold batch. unfold Len, chan_len. simpl_ro. fold batch.
  replace (Z.to_nat (Z.min _ _)) with (length batch) by lia.
  rewrite take_ge, drop_all by lia.
  change (set_metrics _ (set_metrics _ ro)) with ro1.
  unfold mbind at 1, Stage_bind. simpl.
  destruct (run (write batch) ro1) as [[[err ro2] t2]| |]; simpl; [|done|done].
  destruct (run _ ro2) as [[[[] ro3] t3]| |]; simpl; done.
Qed.

Lemma AddMetric_buffer_batch_sent m ro o :
  stage_ok ro →
  Len (metrics ro) + 1 = MetricBatchSize ro →
  let batch := chan_queue (buf (metrics ro)) ++ [m] in
  telegraf.Write (Output ro) batch = (o, None) →
  run (AddMetric_buffer m) ro =
    Ok (tt, set_Output o (set_metrics (emptied (metrics ro)) ro),
        [EvAdd Primary [m]; EvBatch Primary (MetricBatchSize ro) batch;
         EvOutputWrite batch None]
        ++ (if Quiet ro then []
            else [EvLog (Z.of_nat (length batch)) (Name ro)])).
Proof.
  intros Hok Hfull batch HW. rewrite AddMetric_buffer_batch by done.
  fold batch. rewrite run_write_cons by (subst batch; by destruct (chan_queue _)).
  simpl_ro. rewrite HW. simpl. by destruct (Quiet ro).
Qed.

Lemma AddMetric_buffer_batch_failed m ro o e :
  stage_ok ro →
  Len (metrics ro) + 1 = MetricBatchSize ro →
  let batch := chan_queue (buf (metrics ro)) ++ [m] in
  let fb := failMetrics ro in
  telegraf.Write (Output ro) batch = (o, Some e) →
  run (AddMetric_buffer m) ro =
    Ok (tt,
        set_failMetrics
          (mkBuffer
             (mkChan (chan_cap (buf fb))
                     (surviving (chan_cap (buf fb)) (chan_queue (buf fb) ++ batch)))
             (Nat.iter (evictions (chan_cap (buf fb))
                          (length (chan_queue (buf fb))) (length batch))
                       GoInt.incr (drops fb)))
          (set_Output o (set_metrics (emptied (metrics ro)) ro)),
        [EvAdd Primary [m]; EvBatch Primary (MetricBatchSize ro) batch;
         EvOutputWrite batch (Some e); EvAdd Failed batch]).
Proof.
  intros Hok Hfull batch fb HW. rewrite AddMetric_buffer_batch by done.
  fold batch. rewrite run_write_cons by (subst batch; by destruct (chan_queue _)).
  simpl_ro. rewrite HW. cbn [fst snd mbind outcome_bind].
  destruct Hok as (_ & _ & _ & Hfcap & Hfsz & Hflen).
  rewrite run_call_Add by (unfold buffer_ok; simpl_ro; lia).
  done.
Qed.

(** What every call of [AddMetric_buffer] keeps. *)
Lemma AddMetric_buffer_ok m ro :
  stage_ok ro →
  ∃ ro' t,
    run (AddMetric_buffer m) ro = Ok (tt, ro', t)
    ∧ stage_ok ro'
    ∧ drops (metrics ro') = drops (metrics ro)
    ∧ Config ro' = Config ro
    ∧ MetricBatchSize ro' = MetricBatchSize ro
    ∧ MetricBufferLimit ro' = MetricBufferLimit ro
    ∧ head t = Some (EvAdd Primary [m]).
Proof.
  intros Hok. pose proof Hok as (Hcap & Hsz & Hlen & Hfcap & Hfsz & Hflen).
  destruct (decide (Len (metrics ro) + 1 < MetricBatchSize ro)) as [Hroom|Hfull].
  - rewrite AddMetric_buffer_room by done. eexists _, _. split; [done|].
    split; [|done]. unfold stage_ok, Len, chan_len in *. simpl_ro.
    rewrite length_app. simpl. lia.
  - assert (Hfull' : Len (metrics ro) + 1 = MetricBatchSize ro) by lia.
    destruct (telegraf.Write (Output ro) (chan_queue (buf (metrics ro)) ++ [m]))
      as [o [e|]] eqn:HW.
    + rewrite (AddMetric_buffer_batch_failed m ro o e) by done.
      eexists _, _. split; [done|]. split; [|done].
      unfold stage_ok, Len, chan_len in *. simpl_ro. simpl.
      rewrite surviving_length by lia. lia.
    + rewrite (AddMetric_buffer_batch_sent m ro o) by done.
      eexists _, _. split; [done|]. split; [|done].
      unfold stage_ok, Len, chan_len in *. simpl_ro. simpl. lia.
Qed.

Lemma run_AddMetric m ro :
  let f := OutputConfig_Filter (Config ro) in
  run (AddMetric m) ro =
    if IsActive f && negb (ShouldMetricPass f m) then Ok (tt, ro, [])
    else run (AddMetric_buffer (filtered_metric f m)) ro.
Proof.
  intros f. unfold AddMetric. rewrite run_gets_bind. fold f.
  by destruct (IsActive f && negb (ShouldMetricPass f m)).
Qed.

Lemma AddMetric_ok m ro :
  stage_ok ro →
  ∃ ro' t,
    run (AddMetric m) ro = Ok (tt, ro', t)
    ∧ stage_ok ro'
    ∧ drops (metrics ro') = drops (metrics ro)
    ∧ Config ro' = Config ro
    ∧ MetricBatchSize ro' = MetricBatchSize ro
    ∧ MetricBufferLimit ro' = MetricBufferLimit ro.
Proof.
  intros Hok. rewrite run_AddMetric.
  destruct (IsActive _ && _).
  - by eexists _, _.
  - destruct (AddMetric_buffer_ok (filtered_metric (OutputConfig_Filter (Config ro)) m)
                ro Hok) as (ro' & t & -> & ? & ? & ? & ? & ? & ?).
    by eexists _, _.
Qed.

Lemma AddMetrics_ok ms ro :
  stage_ok ro →
  ∃ ro' t,
    run (AddMetrics ms) ro = Ok (tt, ro', t)
    ∧ stage_ok ro'
    ∧ drops (metrics ro') = drops (metrics ro).
Proof.
  revert ro. induction ms as [|m ms IH]; intros ro Hok.
  - by eexists _, _.
  - destruct (AddMetric_ok m ro Hok) as (ro1 & t1 & Hrun & Hok1 & Hd1 & _).
    destruct (IH ro1 Hok1) as (ro2 & t2 & Hrun2 & Hok2 & Hd2).
    exists ro2, (t1 ++ t2). cbn [AddMetrics].
    rewrite (run_bind_Ok _ _ _ _ _ _ Hrun), Hrun2. simpl.
    split; [done|]. split; [done|]. congruence.
Qed.

Lemma NewRunningOutput_Ok name (output : O) conf batchSize bufferLimit ro :
  NewRunningOutput name output conf batchSize bufferLimit = Ok ro →
  stage_ok ro ∧ drops (metrics ro) = 0 ∧ drops (failMetrics ro) = 0
  ∧ chan_queue (buf (metrics ro)) = [] ∧ chan_queue (buf (failMetrics ro)) = []
  ∧ MetricBatchSize ro =
      (if bool_decide (batchSize = 0) then DEFAULT_METRIC_BATCH_SIZE else batchSize)
  ∧ MetricBufferLimit ro =
      (if bool_decide (bufferLimit = 0) then DEFAULT_METRIC_BUFFER_LIMIT
       else bufferLimit).
Proof.
  unfold NewRunningOutput.
  set (bs := if bool_decide (batchSize = 0) then _ else _).
  set (bl := if bool_decide (bufferLimit = 0) then _ else _).
  destruct (NewBuffer bs) as [b1| |] eqn:H1; simpl; [|done|done].
  destruct (NewBuffer bl) as [b2| |] eqn:H2; simpl; [|done|done].
  apply NewBuffer_Ok in H1 as [Hbs ->]. apply NewBuffer_Ok in H2 as [Hbl ->].
  intros [= <-]. unfold stage_ok, Len, chan_len. simpl.
  assert (bs ≠ 0).
  { subst bs. unfold DEFAULT_METRIC_BATCH_SIZE. case_bool_decide; lia. }
  assert (bl ≠ 0).
  { subst bl. unfold DEFAULT_METRIC_BUFFER_LIMIT. case_bool_decide; lia. }
  repeat split; lia.
Qed.

End AddMetric_facts.

(** C10: from [NewRunningOutput] on, after any calls of [AddMetric] one
    after the other, the primary buffer holds fewer metrics than its
    capacity, which is the batch size, and its counter of drops is 0; so the
    next insertion, whatever the metric, is a plain send at the tail and
    nothing is evicted. *)
Theorem C10_primary_buffer_never_drops {O : Type} `{!telegraf.Output O}
    (name : string) (output : O) (conf : OutputConfig)
    (batchSize bufferLimit : Z) (ro0 : RunningOutput O) (ms : list Metric) :
  NewRunningOutput name output conf batchSize bufferLimit = Ok ro0 →
  ∃ ro t,
    run (AddMetrics ms) ro0 = Ok (tt, ro, t)
    ∧ drops (metrics ro) = 0
    ∧ chan_cap (buf (metrics ro)) = MetricBatchSize ro
    ∧ Len (metrics ro) < chan_cap (buf (metrics ro))
    ∧ ∀ m, Add1 m (metrics ro) =
             Ok (mkBuffer (mkChan (chan_cap (buf (metrics ro)))
                                  (chan_queue (buf (metrics ro)) ++ [m])) 0).
Proof.
  intros (Hok & Hd & _)%NewRunningOutput_Ok.
  destruct (AddMetrics_ok ms ro0 Hok) as (ro & t & Hrun & Hok' & Hd').
  exists ro, t. split; [done|]. rewrite Hd' , Hd.
  destruct Hok' as (Hcap & _ & Hlen & _).
  split; [done|]. split; [done|]. split; [lia|].
  intros m. rewrite Add1_room by lia. by rewrite Hd', Hd.
Qed.

Lemma C10_witness :
  NewRunningOutput "out" Failing no_filter 2 4 = Ok (stage_of no_filter 2 4 [] [])
  ∧ ∃ ro t, run (AddMetrics [m1; m2; m3]) (stage_of no_filter 2 4 [] [])
            = Ok (tt, ro, t)
            ∧ drops (metrics ro) = 0.
Proof.
  split; [reflexivity|].
  destruct (C10_primary_buffer_never_drops "out" Failing no_filter 2 4
              (stage_of no_filter 2 4 [] []) [m1; m2; m3] eq_refl)
    as (ro & t & Hrun & Hd & _).
  exists ro, t. split; [exact Hrun|exact Hd].
Defined.

Lemma C8_witness :
  run (AddMetric m1) (stage_of rejecting 2 4 [m2] [m3])
  = Ok (tt, stage_of rejecting 2 4 [m2] [m3], []).
Proof.
  apply (C8_rejected_metric_has_no_effect (stage_of rejecting 2 4 [m2] [m3]) m1);
    reflexivity.
Defined.

Lemma filtered_metric_rules f (metric : Metric) :
  TagExclude f ≠ [] ∨ TagInclude f ≠ [] →
  filtered_metric f metric =
    telegraf.mkMetric (telegraf.Name metric)
      (FilterTags f (telegraf.Tags metric))
      (telegraf.Fields metric) (telegraf.Time metric).
Proof.
  intros Hr. unfold filtered_metric. rewrite bool_decide_eq_true_2; [done|].
  destruct Hr as [Hr|Hr]; [left|right];
    (destruct (TagExclude f), (TagInclude f); simpl; try done; lia).
Qed.

(** C9: when tag rules are configured and the filter lets the metric pass,
    what [AddMetric] hands to the primary buffer is a metric with the
    filtered tags and with the name, the fields and the time of the one it
    was given.  It is left at the tail of the primary buffer, or, when it
    completes a batch, it is the last metric of the batch that is taken at
    once.  With [TagExclude = {"host"}], a metric tagged [host=a,region=b] is
    buffered with the one tag [region=b]. *)
Theorem C9_filtered_tags_buffered :
  (∀ (O : Type) (W : telegraf.Output O) (ro : RunningOutput O)
     (metric : Metric),
     let f := OutputConfig_Filter (Config ro) in
     stage_ok ro →
     (IsActive f = true → ShouldMetricPass f metric = true) →
     TagExclude f ≠ [] ∨ TagInclude f ≠ [] →
     ∃ m' ro' t,
       telegraf.Tags m' = FilterTags f (telegraf.Tags metric)
       ∧ telegraf.Name m' = telegraf.Name metric
       ∧ telegraf.Fields m' = telegraf.Fields metric
       ∧ telegraf.Time m' = telegraf.Time metric
       ∧ run (AddMetric metric) ro = Ok (tt, ro', t)
       ∧ head t = Some (EvAdd Primary [m'])
       ∧ (Len (metrics ro) + 1 < MetricBatchSize ro →
          chan_queue (buf (metrics ro')) = chan_queue (buf (metrics ro)) ++ [m']
          ∧ t = [EvAdd Primary [m']])
       ∧ (Len (metrics ro) + 1 = MetricBatchSize ro →
          batches_of Primary t = [chan_queue (buf (metrics ro)) ++ [m']]))
  ∧ (∀ (name : string) (fields : gmap string telegraf.FieldValue) (time : Z),
       let metric :=
         telegraf.mkMetric name
           (list_to_map [("host", "a"); ("region", "b")]%string) fields time in
       let m' :=
         telegraf.mkMetric name {[ "region"%string := "b"%string ]} fields time in
       ∃ ro0 ro',
         NewRunningOutput "out" Failing exclude_host 2 4 = Ok ro0
         ∧ run (AddMetric metric) ro0 = Ok (tt, ro', [EvAdd Primary [m']])
         ∧ chan_queue (buf (metrics ro')) = [m']).
Proof.
  split.
  - intros O W ro metric f Hok Hpass Hrules.
    rewrite run_AddMetric. fold f.
    assert (IsActive f && negb (ShouldMetricPass f metric) = false) as ->.
    { destruct (IsActive f); [|done]. by rewrite Hpass. }
    pose proof (filtered_metric_rules f metric Hrules) as Hm.
    set (m' := filtered_metric f metric) in *.
    destruct (AddMetric_buffer_ok m' ro Hok)
      as (ro' & t & Hrun & _ & _ & _ & _ & _ & Hhead).
    exists m', ro', t. do 4 (split; [by rewrite Hm|]).
    split; [done|]. split; [done|].
    split.
    + intros Hroom. rewrite AddMetric_buffer_room in Hrun by done.
      injection Hrun as <- <-. done.
    + intros Hfull.
      destruct (telegraf.Write (Output ro) (chan_queue (buf (metrics ro)) ++ [m']))
        as [o [e|]] eqn:HW.
      * rewrite (AddMetric_buffer_batch_failed m' ro o e) in Hrun by done.
        injection Hrun as <- <-. done.
      * rewrite (AddMetric_buffer_batch_sent m' ro o) in Hrun by done.
        injection Hrun as <- <-. by destruct (Quiet ro).
  - intros name fields time metric m'.
    eexists _, _. split; [reflexivity|]. split; vm_compute; reflexivity.
Qed.

Lemma C9_witness :
  stage_ok (stage_of exclude_host 2 4 [] [])
  ∧ ∃ m' ro' t,
      run (AddMetric m1) (stage_of exclude_host 2 4 [] []) = Ok (tt, ro', t)
      ∧ telegraf.Name m' = "m1"%string
      ∧ head t = Some (EvAdd Primary [m']).
Proof.
  assert (Hok : stage_ok (stage_of exclude_host 2 4 [] [])).
  { unfold stage_ok, Len, chan_len. simpl. lia. }
  split; [exact Hok|].
  destruct (proj1 C9_filtered_tags_buffered failing _
              (stage_of exclude_host 2 4 [] []) m1 Hok)
    as (m' & ro' & t & _ & Hn & _ & _ & Hrun & Hhead & _).
  - discriminate.
  - left. discriminate.
  - exists m', ro', t. split; [exact Hrun|]. split; [exact Hn|exact Hhead].
Defined.

(** ** [Write] *)

Section Write_facts.

Context {O : Type} `{!telegraf.Output O}.
Implicit Types (ro : RunningOutput O) (t : list event).

Lemma requeued_app t1 t2 : requeued t1 → requeued t2 → requeued (t1 ++ t2).
Proof.
  induction t1 as [|ev t1 IH]; intros H1 H2; [done|].
  destruct ev as [| |batch [e|]|]; simpl in *; try by apply IH.
  destruct H1 as [Hh H1]. split; [|by apply IH].
  destruct t1; simpl in *; [done|done].
Qed.

Lemma batches_of_app which t1 t2 :
  batches_of which (t1 ++ t2) = batches_of which t1 ++ batches_of which t2.
Proof. apply omap_app. Qed.

Lemma output_writes_app t1 t2 :
  output_writes (t1 ++ t2) = output_writes t1 ++ output_writes t2.
Proof. apply omap_app. Qed.

(** One round: [k] metrics are taken from the failed ones, written, and put
    back when the output refuses them. *)
Lemma run_retry_round k ro :
  0 ≤ k ≤ Len (failMetrics ro) →
  buffer_ok (failMetrics ro) →
  ∃ ro' t out,
    run (batch ← call_Batch Failed k;
         err ← write batch;
         match err with
         | Some _ => call_Add Failed batch
         | None => mret tt
         end) ro = Ok (tt, ro', t)
    ∧ retry_post ro ro' t
    ∧ batches_of Failed t = [out]
    ∧ Z.of_nat (length out) = k
    ∧ Len (failMetrics ro) - k ≤ Len (failMetrics ro').
Proof.
  intros Hk Hok. pose proof Hok as [Hcap Hlen].
  erewrite run_bind_Ok; [|apply run_call_Batch; lia].
  simpl_ro. replace (Z.to_nat (Z.min _ k)) with (Z.to_nat k) by lia.
  set (fb := failMetrics ro) in *.
  set (out := take (Z.to_nat k) (chan_queue (buf fb))).
  set (fb1 := mkBuffer (mkChan (chan_cap (buf fb))
                               (drop (Z.to_nat k) (chan_queue (buf fb))))
                       (drops fb)).
  assert (Hout : Z.of_nat (length out) = k).
  { unfold out. rewrite length_take. unfold Len, chan_len in *. lia. }
  assert (Hlen1 : Len fb1 = Len fb - k).
  { unfold Len, chan_len in *. unfold fb1. simpl. rewrite length_drop. lia. }
  assert (Hok1 : buffer_ok fb1).
  { unfold buffer_ok. rewrite Hlen1. unfold fb1. simpl. lia. }
  assert (Hcap1 : chan_cap (buf fb1) = chan_cap (buf fb)) by done.
  clearbody fb1 out.
  destruct (decide (out = [])) as [Hnil|Hne].
  - rewrite Hnil. erewrite run_bind_Ok; [|apply run_write_nil].
    cbv beta iota. rewrite run_ret. simpl.
    eexists _, _, []. split; [done|].
    rewrite Hnil in Hout. simpl in Hout.
    split; [|split; [done|split; [done|simpl_ro; lia]]].
    unfold retry_post. simpl_ro. simpl. done.
  - erewrite run_bind_Ok; [|by apply run_write_cons].
    cbv beta. simpl_ro.
    destruct (telegraf.Write (Output ro) out) as [o [e|]]; cbn [fst snd].
    + cbv iota. rewrite run_call_Add by (simpl_ro; done).
      simpl_ro. cbn [mbind outcome_bind].
      eexists _, _, out. split; [done|].
      assert (Hs : Z.of_nat (length (surviving (chan_cap (buf fb1))
                                        (chan_queue (buf fb1) ++ out)))
                   = Len fb).
      { destruct Hok1. rewrite surviving_length by lia. rewrite length_app.
        unfold Len, chan_len in *. lia. }
      split; [|split; [|split; [done|]]].
      * unfold retry_post, buffer_ok, Len, chan_len. simpl_ro.
        rewrite Hs, Hcap1.
        split; [done|]. split; [done|]. split; [done|]. split; [done|].
        split; [done|].
        split; [done|]. split; [done|].
        constructor; [done|constructor].
      * simpl. done.
      * unfold Len at 2, chan_len. simpl_ro. rewrite Hs. lia.
    + cbv iota. rewrite run_ret. cbn [mbind outcome_bind].
      eexists _, _, out. split; [done|].
      split; [|split; [|split; [done|]]].
      * unfold retry_post. simpl_ro.
        split; [done|]. split; [done|]. split; [done|]. split; [done|].
        split; [done|].
        destruct (Quiet ro); simpl;
          (split; [done|split; [done|constructor; [done|constructor]]]).
      * by destruct (Quiet ro).
      * simpl_ro. lia.
Qed.

Lemma retry_post_refl ro : buffer_ok (failMetrics ro) → retry_post ro ro [].
Proof. intros Hok. unfold retry_post. simpl. done. Qed.

Lemma retry_post_trans ro ro1 ro2 t1 t2 :
  retry_post ro ro1 t1 → retry_post ro1 ro2 t2 → retry_post ro ro2 (t1 ++ t2).
Proof.
  intros (? & ? & ? & ? & ? & Hp1 & ? & ?) (? & ? & ? & ? & ? & Hp2 & ? & ?).
  unfold retry_post. rewrite batches_of_app, output_writes_app, Hp1, Hp2.
  split; [congruence|]. split; [congruence|]. split; [congruence|].
  split; [congruence|]. split; [done|]. split; [done|].
  split; [by apply requeued_app|by apply Forall_app].
Qed.

(** The loop of [Write] from round [s] on, with [n] rounds to go: all the
    rounds but the last take [size] metrics, the last takes the remainder. *)
Lemma run_Write_loop (n : nat) : ∀ (s : nat) ro (nBatches bufLen size : Z),
  nBatches = Z.of_nat s + Z.of_nat n → nBatches ≤ GoInt.max_int →
  MetricBatchSize ro = size → 0 < size → 0 ≤ bufLen →
  buffer_ok (failMetrics ro) →
  (n ≠ 0%nat →
   (Z.of_nat n - 1) * size + Z.rem bufLen size ≤ Len (failMetrics ro)) →
  ∃ ro' t,
    run (Write_loop (Z.of_nat <$> seq s n) nBatches bufLen size) ro
      = Ok (tt, ro', t)
    ∧ retry_post ro ro' t
    ∧ length <$> batches_of Failed t =
        match n with
        | 0%nat => []
        | S n' => replicate n' (Z.to_nat size) ++ [Z.to_nat (Z.rem bufLen size)]
        end.
Proof.
  induction n as [|n IH]; intros s ro nBatches bufLen size HnB Hmax Hsz Hpos Hbl Hok Hlen.
  - simpl. eexists _, _. split; [done|]. split; [by apply retry_post_refl|done].
  - assert (Hsub : GoInt.sub nBatches 1 = nBatches - 1).
    { unfold GoInt.sub. apply wrap_in_range.
      unfold GoInt.in_range, GoInt.min_int, GoInt.max_int in *. lia. }
    assert (Hrem : 0 ≤ Z.rem bufLen size < size).
    { apply Z.rem_bound_pos; lia. }
    cbn [seq fmap list_fmap Write_loop]. rewrite Hsub.
    destruct (decide (n = 0%nat)) as [->|Hn].
    + rewrite bool_decide_eq_true_2 by lia.
      specialize (Hlen ltac:(lia)).
      erewrite run_bind_Ok; last first.
      { rewrite run_gets_bind. rewrite Hsz. unfold rem. cbn [run].
        rewrite bool_decide_eq_false_2 by lia. done. }
      cbv beta.
      destruct (run_retry_round (Z.rem bufLen size) ro)
        as (ro1 & t1 & out & Hrun & Hpost & Hb & Hout & _); [lia|done|].
      erewrite run_bind_Ok; [|exact Hrun].
      cbv beta. cbn [seq fmap list_fmap Write_loop]. rewrite run_ret. simpl.
      eexists _, _. split; [done|]. rewrite app_nil_r. split; [done|].
      rewrite Hb. simpl. f_equal. lia.
    + rewrite bool_decide_eq_false_2 by lia.
      erewrite run_bind_Ok; [|apply run_ret]. cbv beta.
      specialize (Hlen ltac:(lia)).
      assert (Hmore : size + (Z.of_nat n - 1) * size + Z.rem bufLen size
                      ≤ Len (failMetrics ro)) by lia.
      assert (0 ≤ (Z.of_nat n - 1) * size) by nia.
      destruct (run_retry_round size ro)
        as (ro1 & t1 & out & Hrun & Hpost & Hb & Hout & Hlen1); [lia|done|].
      erewrite run_bind_Ok; [|exact Hrun]. cbv beta.
      pose proof Hpost as (_ & Hsz1 & _ & _ & Hok1 & _).
      destruct (IH (S s) ro1 nBatches bufLen size)
        as (ro2 & t2 & Hrun2 & Hpost2 & Hb2); try done; try lia.
      rewrite Hrun2. simpl.
      eexists _, _. split; [done|].
      split; [by eapply retry_post_trans|].
      rewrite batches_of_app, fmap_app, Hb, Hb2. simpl.
      destruct n as [|n']; [done|]. simpl. f_equal. lia.
Qed.

(** The first part of [Write] on a buffer of failed metrics that is not
    empty. *)
Lemma run_Write_failed ro :
  stage_ok ro → 0 < Len (failMetrics ro) →
  let failLen := Len (failMetrics ro) in
  let size := MetricBatchSize ro in
  ∃ ro' t,
    run Write_failed ro = Ok (tt, ro', t)
    ∧ retry_post ro ro' t
    ∧ length <$> batches_of Failed t =
        replicate (Z.to_nat (failLen `div` size)) (Z.to_nat size)
        ++ [Z.to_nat (failLen `mod` size)].
Proof.
  intros (Hcap & Hsz & Hlen & Hfcap & Hfsz & Hflen) Hne failLen size.
  unfold Write_failed. rewrite run_gets_bind.
  unfold IsEmpty. fold (Len (failMetrics ro)).
  rewrite bool_decide_eq_false_2 by lia. cbn [negb].
  rewrite !run_gets_bind. fold failLen size.
  assert (Hq : Z.quot failLen size = failLen `div` size)
    by (apply Z.quot_div_nonneg; lia).
  assert (Hr : Z.rem failLen size = failLen `mod` size)
    by (apply Z.rem_mod_nonneg; lia).
  assert (Hdiv : 0 ≤ failLen `div` size ≤ failLen).
  { split; [apply Z.div_pos; lia|]. apply Z.div_le_upper_bound; nia. }
  erewrite run_bind_Ok; last first.
  { unfold quo. cbn [run]. rewrite bool_decide_eq_false_2 by lia.
    rewrite Hq, wrap_in_range; [done|].
    unfold GoInt.in_range, GoInt.min_int, GoInt.max_int. lia. }
  cbv beta zeta. unfold GoInt.add. rewrite wrap_in_range; last first.
  { unfold GoInt.in_range, GoInt.min_int, GoInt.max_int. lia. }
  unfold indices.
  destruct (run_Write_loop (Z.to_nat (failLen `div` size + 1)) 0 ro
              (failLen `div` size + 1) failLen size)
    as (ro' & t & Hrun & Hpost & Hb); try done; try lia.
  { unfold GoInt.max_int. lia. }
  { unfold buffer_ok. lia. }
  { intros _. rewrite Hr. fold failLen.
    pose proof (Z.div_mod failLen size). lia. }
  rewrite Hrun. simpl. eexists _, _. split; [done|]. split; [done|].
  rewrite Hb, Hr.
  replace (Z.to_nat (failLen `div` size + 1))
    with (S (Z.to_nat (failLen `div` size))) by lia.
  done.
Qed.

(** The first part of [Write] in general. *)
Lemma Write_failed_ok ro :
  stage_ok ro →
  ∃ ro' t, run Write_failed ro = Ok (tt, ro', t) ∧ retry_post ro ro' t.
Proof.
  intros Hok. pose proof Hok as (Hcap & Hsz & Hlen & Hfcap & Hfsz & Hflen).
  destruct (decide (0 < Len (failMetrics ro))) as [Hne|He].
  - destruct (run_Write_failed ro Hok Hne) as (ro' & t & ? & ? & _). eauto.
  - unfold Write_failed. rewrite run_gets_bind. unfold IsEmpty.
    fold (Len (failMetrics ro)).
    assert (Len (failMetrics ro) = 0) by (unfold Len, chan_len in *; lia).
    rewrite bool_decide_eq_true_2 by done. cbn [negb].
    eexists _, _. split; [apply run_ret|]. apply retry_post_refl.
    unfold buffer_ok. lia.
Qed.

(** The second part of [Write]: the whole primary buffer is one batch; the
    result is [nil] for an empty batch and the answer of the output
    otherwise, and a refused batch goes to the failed metrics. *)
Lemma run_Write_metrics ro :
  chan_cap (buf (metrics ro)) = MetricBatchSize ro →
  Len (metrics ro) < MetricBatchSize ro →
  buffer_ok (failMetrics ro) →
  let batch := chan_queue (buf (metrics ro)) in
  let err := if decide (batch = []) then None
             else (telegraf.Write (Output ro) batch).2 in
  ∃ ro' t,
    run Write_metrics ro = Ok (err, ro', t)
    ∧ chan_queue (buf (metrics ro')) = []
    ∧ batches_of Failed t = []
    ∧ batches_of Primary t = [batch]
    ∧ requeued t
    ∧ Forall (λ b, b ≠ []) (output_writes t)
    ∧ (batch = [] → ro' = ro)
    ∧ buffer_ok (failMetrics ro')
    ∧ drops (metrics ro') = drops (metrics ro)
    ∧ MetricBatchSize ro' = MetricBatchSize ro
    ∧ MetricBufferLimit ro' = MetricBufferLimit ro
    ∧ chan_cap (buf (metrics ro')) = chan_cap (buf (metrics ro))
    ∧ chan_cap (buf (failMetrics ro')) = chan_cap (buf (failMetrics ro)).
Proof.
  intros Hcap Hlen Hokf batch err. unfold Write_metrics.
  rewrite run_gets_bind.
  assert (0 ≤ Len (metrics ro)) by (unfold Len, chan_len; lia).
  erewrite run_bind_Ok; [|apply run_call_Batch; lia]. cbv beta. simpl_ro.
  replace (Z.to_nat (Z.min _ _)) with (length batch)
    by (unfold batch, Len, chan_len in *; lia).
  fold batch. rewrite take_ge, drop_all by lia.
  unfold err. destruct (decide (batch = [])) as [Hnil|Hne].
  - rewrite Hnil. erewrite run_bind_Ok; [|apply run_write_nil].
    cbv beta iota. rewrite run_ret. simpl.
    assert (Hro : set_metrics (mkBuffer (mkChan (chan_cap (buf (metrics ro))) [])
                                        (drops (metrics ro))) ro = ro).
    { destruct ro as [? ? ? ? ? ? [[c q] d] ?]. simpl in *.
      unfold batch in Hnil. simpl in Hnil. by rewrite Hnil. }
    rewrite Hro. eexists _, _. split; [done|].
    fold batch. rewrite Hnil. simpl. done.
  - erewrite run_bind_Ok; [|by apply run_write_cons]. cbv beta. simpl_ro.
    destruct (telegraf.Write (Output ro) batch) as [o [e|]]; cbn [fst snd].
    + cbv iota. erewrite run_bind_Ok; [|by apply run_call_Add].
      cbv beta. rewrite run_ret. simpl_ro. cbn [mbind outcome_bind].
      eexists _, _. split; [done|]. simpl_ro. simpl.
      split; [done|]. split; [done|]. split; [done|]. split; [done|].
      split; [by repeat constructor|]. split; [done|].
      split; [|done].
      destruct Hokf as [Hc Hl]. unfold buffer_ok, Len, chan_len in *. simpl.
      rewrite surviving_length by lia. lia.
    + cbv iota. rewrite run_ret. cbn [mbind outcome_bind].
      eexists _, _. split; [done|]. simpl_ro.
      destruct (Quiet ro); simpl;
        (split; [done|]; split; [done|]; split; [done|]; split; [done|];
         split; [by repeat constructor|]; done).
Qed.


End Write_facts.

Lemma stage_of_ok conf batchSize bufferLimit primary failed :
  0 < batchSize < 2 ^ 60 → 0 < bufferLimit < 2 ^ 60 →
  Z.of_nat (length primary) < batchSize →
  Z.of_nat (length failed) ≤ bufferLimit →
  stage_ok (stage_of conf batchSize bufferLimit primary failed).
Proof. intros. unfold stage_ok, Len, chan_len. simpl. lia. Qed.

(** C4: [Write] on a running output whose buffer of failed metrics holds
    [failLen > 0] metrics returns, and calls [Batch] on that buffer
    [failLen / batchSize + 1] times: every call but the last takes
    [batchSize] metrics, the last takes [failLen mod batchSize]; an empty
    batch is never handed to the output.  With batch size 2, the failed
    metrics [a, b] (put there by two calls of [AddMetric]) and an output that
    is down, [Write] takes [a, b], puts them back, takes the empty remainder,
    finds the primary buffer empty and returns [nil]; the failed metrics are
    [a, b] as before. *)
Theorem C4_failed_metrics_in_batches :
  (∀ (O : Type) (W : telegraf.Output O) (ro : RunningOutput O),
     stage_ok ro → 0 < Len (failMetrics ro) →
     let failLen := Len (failMetrics ro) in
     let batchSize := MetricBatchSize ro in
     ∃ err ro' t,
       run Write ro = Ok (err, ro', t)
       ∧ Z.of_nat (length (batches_of Failed t)) = failLen `div` batchSize + 1
       ∧ length <$> batches_of Failed t =
           replicate (Z.to_nat (failLen `div` batchSize)) (Z.to_nat batchSize)
           ++ [Z.to_nat (failLen `mod` batchSize)]
       ∧ Forall (λ b, b ≠ []) (output_writes t))
  ∧ (∀ a b : Metric,
       NewRunningOutput "out" Failing no_filter 2 4
         = Ok (stage_of no_filter 2 4 [] [])
       ∧ (∃ t, run (AddMetrics [a; b]) (stage_of no_filter 2 4 [] [])
               = Ok (tt, stage_of no_filter 2 4 [] [a; b], t))
       ∧ run Write (stage_of no_filter 2 4 [] [a; b])
         = Ok (None, stage_of no_filter 2 4 [] [a; b],
               [EvBatch Failed 2 [a; b];
                EvOutputWrite [a; b] (Some "unreachable"%string);
                EvAdd Failed [a; b];
                EvBatch Failed 0 [];
                EvBatch Primary 2 []])).
Proof.
  split.
  - intros O W ro Hok Hne failLen batchSize.
    destruct (run_Write_failed ro Hok Hne) as (ro1 & t1 & Hrun1 & Hpost & Hb).
    destruct Hpost as (Hm & Hsz & _ & _ & Hokf & _ & _ & Hw1).
    destruct Hok as (Hcap & Hbs & Hlen & _).
    destruct (run_Write_metrics ro1)
      as (ro2 & t2 & Hrun2 & _ & Hb2 & _ & _ & Hw2 & _);
      [by rewrite Hm, Hsz|by rewrite Hm, Hsz|done|].
    unfold Write. rewrite (run_bind_Ok _ _ _ _ _ _ Hrun1), Hrun2. simpl.
    eexists _, _, _. split; [done|].
    rewrite batches_of_app, Hb2, app_nil_r, output_writes_app.
    fold failLen batchSize in Hb.
    split; [|split; [done|by apply Forall_app]].
    rewrite <- (length_fmap length), Hb, length_app, length_replicate. simpl.
    assert (0 ≤ failLen `div` batchSize) by (apply Z.div_pos; lia). lia.
  - intros a b. split; [reflexivity|]. split; [eexists|]; reflexivity.
Qed.

Lemma C4_witness :
  (stage_ok (stage_of no_filter 2 4 [] [m1; m2; m3])
   ∧ 0 < Len (failMetrics (stage_of no_filter 2 4 [] [m1; m2; m3])))
  ∧ ∃ err ro' t,
      run Write (stage_of no_filter 2 4 [] [m1; m2; m3]) = Ok (err, ro', t)
      ∧ length <$> batches_of Failed t = [2%nat; 1%nat].
Proof.
  assert (Hok : stage_ok (stage_of no_filter 2 4 [] [m1; m2; m3])).
  { apply stage_of_ok; simpl; lia. }
  split; [split; [exact Hok|reflexivity]|].
  destruct (proj1 C4_failed_metrics_in_batches failing _
              (stage_of no_filter 2 4 [] [m1; m2; m3]) Hok eq_refl)
    as (err & ro' & t & Hrun & _ & Hb & _).
  exists err, ro', t. split; [exact Hrun|exact Hb].
Defined.

(** C5: [Write] on a running output returns.  Its first part, the loop over
    the failed metrics, gives no result: each batch that the output refuses
    there is put back into the failed metrics by the next call, and the
    primary buffer is not touched.  The result of [Write] is the one of its
    second part: [nil] when the batch taken from the primary buffer is empty
    and otherwise what the output answers for that batch.  So an output that
    refuses the failed metrics and then takes the primary batch gives [nil],
    and one that takes the failed metrics and then refuses the primary batch
    gives its error. *)
Theorem C5_Write_returns_the_error_of_the_primary_batch :
  (∀ (O : Type) (W : telegraf.Output O) (ro : RunningOutput O),
     stage_ok ro →
     let batch := chan_queue (buf (metrics ro)) in
     ∃ ro1 t1 ro' t2,
       run Write_failed ro = Ok (tt, ro1, t1)
       ∧ requeued t1
       ∧ batches_of Primary t1 = []
       ∧ metrics ro1 = metrics ro
       ∧ run Write ro =
           Ok (if decide (batch = []) then None
               else (telegraf.Write (Output ro1) batch).2,
               ro', t1 ++ t2)
       ∧ batches_of Primary t2 = [batch]
       ∧ batches_of Failed t2 = []
       ∧ requeued t2)
  ∧ (∀ a b : Metric,
       (∃ ro' t,
          run Write (scripted_stage [Some "refused"%string; None] 2 4 [b] [a])
            = Ok (None, ro', t)
          ∧ output_writes t = [[a]; [b]]
          ∧ chan_queue (buf (failMetrics ro')) = [a])
       ∧ (∃ ro' t,
            run Write (scripted_stage [None; Some "refused"%string] 2 4 [b] [a])
              = Ok (Some "refused"%string, ro', t)
            ∧ output_writes t = [[a]; [b]]
            ∧ chan_queue (buf (failMetrics ro')) = [b])).
Proof.
  split.
  - intros O W ro Hok batch.
    destruct (Write_failed_ok ro Hok) as (ro1 & t1 & Hrun1 & Hpost).
    destruct Hpost as (Hm & Hsz & _ & _ & Hokf & Hp1 & Hr1 & _).
    destruct Hok as (Hcap & Hbs & Hlen & _).
    destruct (run_Write_metrics ro1)
      as (ro2 & t2 & Hrun2 & _ & Hb2 & Hp2 & Hr2 & _);
      [by rewrite Hm, Hsz|by rewrite Hm, Hsz|done|].
    rewrite Hm in Hrun2, Hp2. fold batch in Hrun2, Hp2.
    exists ro1, t1, ro2, t2. split; [done|]. split; [done|]. split; [done|].
    split; [done|].
    unfold Write. rewrite (run_bind_Ok _ _ _ _ _ _ Hrun1), Hrun2. simpl.
    done.
  - intros a b. split; eexists _, _; (split; [reflexivity|split; reflexivity]).
Qed.

Lemma C5_witness :
  stage_ok (stage_of no_filter 2 4 [m3] [m1; m2])
  ∧ ∃ err ro' t,
      run Write (stage_of no_filter 2 4 [m3] [m1; m2]) = Ok (err, ro', t)
      ∧ err = Some "unreachable"%string.
Proof.
  assert (Hok : stage_ok (stage_of no_filter 2 4 [m3] [m1; m2])).
  { apply stage_of_ok; simpl; lia. }
  split; [exact Hok|].
  destruct (proj1 C5_Write_returns_the_error_of_the_primary_batch failing _
              (stage_of no_filter 2 4 [m3] [m1; m2]) Hok)
    as (ro1 & t1 & ro' & t2 & _ & _ & _ & _ & Hrun & _).
  eexists _, ro', (t1 ++ t2). split; [exact Hrun|]. reflexivity.
Defined.

(** C6, amended: when the buffer of failed metrics is full (it holds [L]
    metrics, [L] its capacity) and [AddMetric] completes a batch that the
    output refuses, the batch of [batchSize] metrics is added to it: the
    length stays [L], the counter of drops goes up by [batchSize] (one
    [drops++] per metric of the batch), and the buffer then holds the last
    [L] of its old metrics followed by the batch; with [batchSize ≤ L] these
    are the old metrics without the oldest [batchSize], followed by the
    batch. *)
Theorem C6_full_failed_buffer_takes_a_batch {O : Type} `{!telegraf.Output O}
    (ro : RunningOutput O) (metric : Metric) (o : O) (e : error) :
  let f := OutputConfig_Filter (Config ro) in
  let batch := chan_queue (buf (metrics ro)) ++ [filtered_metric f metric] in
  let old := chan_queue (buf (failMetrics ro)) in
  let L := MetricBufferLimit ro in
  let batchSize := MetricBatchSize ro in
  stage_ok ro →
  (IsActive f = true → ShouldMetricPass f metric = true) →
  Len (metrics ro) + 1 = batchSize →
  Len (failMetrics ro) = L →
  telegraf.Write (Output ro) batch = (o, Some e) →
  ∃ ro' t,
    run (AddMetric metric) ro = Ok (tt, ro', t)
    ∧ last t = Some (EvAdd Failed batch)
    ∧ Z.of_nat (length batch) = batchSize
    ∧ Len (failMetrics ro') = L
    ∧ chan_queue (buf (failMetrics ro')) = surviving L (old ++ batch)
    ∧ (batchSize ≤ L →
       chan_queue (buf (failMetrics ro')) = drop (Z.to_nat batchSize) old ++ batch)
    ∧ drops (failMetrics ro') =
        Nat.iter (Z.to_nat batchSize) GoInt.incr (drops (failMetrics ro))
    ∧ (GoInt.min_int ≤ drops (failMetrics ro) →
       drops (failMetrics ro) + batchSize ≤ GoInt.max_int →
       drops (failMetrics ro') = drops (failMetrics ro) + batchSize).
Proof.
  intros f batch old L batchSize Hok Hpass Hbatch Hfull HW.
  rewrite run_AddMetric. fold f.
  assert (IsActive f && negb (ShouldMetricPass f metric) = false) as ->.
  { destruct (IsActive f); [|done]. by rewrite Hpass. }
  rewrite (AddMetric_buffer_batch_failed _ ro o e) by done.
  pose proof Hok as (Hcap & Hsz & Hlen & Hfcap & Hfsz & Hflen).
  fold batch old. rewrite Hfcap. fold L.
  assert (Hb : Z.of_nat (length batch) = batchSize).
  { unfold batch, batchSize, Len, chan_len in *. rewrite length_app. simpl. lia. }
  assert (Hold : Z.of_nat (length old) = L) by done.
  assert (Hev : evictions L (length old) (length batch) = Z.to_nat batchSize).
  { unfold evictions. lia. }
  eexists _, _. split; [done|]. simpl_ro. rewrite Hev.
  split; [done|]. split; [done|].
  split; [|split; [done|split; [|split; [done|]]]].
  - unfold Len, chan_len. simpl. rewrite surviving_length by (unfold L; lia).
    rewrite length_app. unfold L, batchSize in *. lia.
  - intros Hle. unfold surviving. rewrite length_app.
    replace (length old + length batch - Z.to_nat L)%nat
      with (Z.to_nat batchSize) by lia.
    rewrite drop_app_le by lia. done.
  - intros Hlo Hhi. rewrite iter_incr_no_overflow; unfold batchSize in *; lia.
Qed.

Lemma C6_witness :
  (stage_ok (stage_of no_filter 1 3 [] [m1; m2; m3])
   ∧ Len (metrics (stage_of no_filter 1 3 [] [m1; m2; m3])) + 1 = 1
   ∧ Len (failMetrics (stage_of no_filter 1 3 [] [m1; m2; m3])) = 3)
  ∧ ∃ ro' t,
      run (AddMetric m4) (stage_of no_filter 1 3 [] [m1; m2; m3]) = Ok (tt, ro', t)
      ∧ chan_queue (buf (failMetrics ro')) = [m2; m3; m4]
      ∧ drops (failMetrics ro') = 1.
Proof.
  assert (Hok : stage_ok (stage_of no_filter 1 3 [] [m1; m2; m3])).
  { apply stage_of_ok; simpl; lia. }
  split; [split; [exact Hok|split; reflexivity]|].
  destruct (C6_full_failed_buffer_takes_a_batch
              (stage_of no_filter 1 3 [] [m1; m2; m3]) m4 Failing
              "unreachable"%string Hok)
    as (ro' & t & Hrun & _ & _ & _ & _ & Hq & _ & Hd);
    [discriminate|reflexivity|reflexivity|reflexivity|].
  exists ro', t. split; [exact Hrun|]. split.
  - rewrite Hq; [reflexivity|]. simpl. lia.
  - rewrite Hd; [reflexivity| |]; vm_compute; discriminate.
Defined.

(** The claim C6 as it is worded: with capacity [L = 3] and batch size 1, the
    buffer of failed metrics is filled by three refused batches; one more
    refused batch evicts one metric, the oldest, and the counter goes up by
    1, not by [L - batchSize = 2]. *)
Lemma C6_counterexample :
  NewRunningOutput "out" Failing no_filter 1 3 = Ok (stage_of no_filter 1 3 [] [])
  ∧ (∃ t, run (AddMetrics [m1; m2; m3]) (stage_of no_filter 1 3 [] [])
          = Ok (tt, stage_of no_filter 1 3 [] [m1; m2; m3], t))
  ∧ Len (failMetrics (stage_of no_filter 1 3 [] [m1; m2; m3]))
    = MetricBufferLimit (stage_of no_filter 1 3 [] [m1; m2; m3])
  ∧ ∃ ro' t,
      run (AddMetric m4) (stage_of no_filter 1 3 [] [m1; m2; m3]) = Ok (tt, ro', t)
      ∧ Len (failMetrics ro') = 3
      ∧ chan_queue (buf (failMetrics ro')) = [m2; m3; m4]
      ∧ chan_queue (buf (failMetrics ro')) ≠ drop (Z.to_nat (3 - 1)) [m1; m2; m3] ++ [m4]
      ∧ drops (failMetrics ro') = 1
      ∧ drops (failMetrics ro') ≠
          drops (failMetrics (stage_of no_filter 1 3 [] [m1; m2; m3])) + (3 - 1).
Proof.
  split; [reflexivity|]. split; [eexists; reflexivity|]. split; [reflexivity|].
  eexists _, _. split; [reflexivity|]. simpl.
  split; [reflexivity|]. split; [reflexivity|]. split; [discriminate|].
  split; [reflexivity|discriminate].
Qed.

(** * Further properties *)

(** ** The buffer *)

(** X1: [Batch] with a negative batch size panics, whatever the buffer
    holds, and [Batch(0)] returns the empty batch and leaves the buffer as
    it is. *)
Theorem X1_Batch_negative_panics_zero_is_void (b : Buffer) :
  (∀ k, k < 0 → Batch k b = Panics)
  ∧ Batch 0 b = Ok ([], b).
Proof.
  split.
  - intros k Hk. unfold Batch. rewrite min_spec.
    assert (0 ≤ Len b) by (unfold Len, chan_len; lia).
    by rewrite bool_decide_eq_true_2 by lia.
  - rewrite Batch_spec by done.
    replace (Z.to_nat (Z.min (Len b) 0)) with 0%nat
      by (unfold Len, chan_len; lia).
    rewrite take_0, drop_0. by destruct b as [[cap q] d].
Qed.

Lemma X1_witness : Batch (-1) full2 = Panics.
Proof. apply (proj1 (X1_Batch_negative_panics_zero_is_void full2) (-1)). lia. Defined.

(** X2: adding metrics in one call of [Add] or in several calls gives the
    same outcome, be it a buffer, or a wait for ever. *)
Theorem X2_Add_in_one_call_or_several (b : Buffer) :
  (∀ l1 l2, Add (l1 ++ l2) b = b' ← Add l1 b; Add l2 b')
  ∧ (∀ calls, Add_calls calls b = Add (concat calls) b)
  ∧ Add [] b = Ok b.
Proof.
  split; [intros; apply Add_app|]. split; [intros; apply Add_calls_concat|done].
Qed.

(** X3: what is added to a buffer with room for it comes back: after [Add]
    of [ms], a [Batch] of at least the length returns the old queue followed
    by [ms], leaves the buffer empty, and no drop was counted. *)
Theorem X3_Add_then_Batch_round_trip (b : Buffer) (ms : list Metric) (k : Z) :
  buffer_ok b →
  Len b + Z.of_nat (length ms) ≤ chan_cap (buf b) →
  Len b + Z.of_nat (length ms) ≤ k →
  ∃ b1 b2,
    Add ms b = Ok b1
    ∧ Batch k b1 = Ok (chan_queue (buf b) ++ ms, b2)
    ∧ IsEmpty b2 = true
    ∧ drops b2 = drops b
    ∧ chan_cap (buf b2) = chan_cap (buf b).
Proof.
  intros Hok Hroom Hk. rewrite Add_spec by done.
  unfold Len, chan_len in *.
  rewrite surviving_all by (rewrite length_app; lia).
  rewrite evictions_none by lia. simpl.
  eexists _, _. split; [done|]. rewrite Batch_spec by lia.
  unfold Len, chan_len. simpl. rewrite length_app.
  replace (Z.to_nat (Z.min _ k))
    with (length (chan_queue (buf b) ++ ms)) by (rewrite length_app; lia).
  rewrite take_ge, drop_all by lia. done.
Qed.

Lemma X3_witness :
  ∃ b1 b2, Add [m1; m2] (mkBuffer (mkChan 2 []) 0) = Ok b1
           ∧ Batch 5 b1 = Ok ([m1; m2], b2).
Proof.
  destruct (X3_Add_then_Batch_round_trip (mkBuffer (mkChan 2 []) 0) [m1; m2] 5)
    as (b1 & b2 & H1 & H2 & _).
  - unfold buffer_ok, Len, chan_len. simpl. lia.
  - unfold Len, chan_len. simpl. lia.
  - unfold Len, chan_len. simpl. lia.
  - exists b1, b2. split; [exact H1|exact H2].
Defined.



(** X5: [Add] on a buffer of positive capacity that is not overfull loses
    nothing without counting it: every metric that was in the buffer or was
    added is in the buffer afterwards or was evicted, the counter went up
    once per evicted metric, and what is left is the tail of the old queue
    followed by the new metrics. *)
Theorem X5_Add_counts_what_it_evicts (b : Buffer) (ms : list Metric) :
  buffer_ok b →
  ∃ b' (evicted : nat),
    Add ms b = Ok b'
    ∧ buffer_ok b'
    ∧ chan_cap (buf b') = chan_cap (buf b)
    ∧ Len b' + Z.of_nat evicted = Len b + Z.of_nat (length ms)
    ∧ Len b' = Z.min (Len b + Z.of_nat (length ms)) (chan_cap (buf b))
    ∧ chan_queue (buf b') =
        drop evicted (chan_queue (buf b) ++ ms)
    ∧ drops b' = Nat.iter evicted GoInt.incr (drops b)
    ∧ (GoInt.min_int ≤ drops b →
       drops b + Z.of_nat evicted ≤ GoInt.max_int →
       drops b' = drops b + Z.of_nat evicted).
Proof.
  intros Hok. rewrite Add_spec by done. destruct Hok as [Hcap Hlen].
  exists (mkBuffer
            (mkChan (chan_cap (buf b))
                    (surviving (chan_cap (buf b)) (chan_queue (buf b) ++ ms)))
            (Nat.iter (evictions (chan_cap (buf b))
                         (length (chan_queue (buf b))) (length ms))
                      GoInt.incr (drops b))),
         (evictions (chan_cap (buf b)) (length (chan_queue (buf b))) (length ms)).
  split; [done|]. unfold buffer_ok, Len, chan_len, evictions in *. simpl.
  rewrite surviving_length, length_app by lia.
  split; [lia|]. split; [done|]. split; [lia|]. split; [lia|].
  split; [unfold surviving; by rewrite length_app|]. split; [done|].
  intros Hlo Hhi. by apply iter_incr_no_overflow.
Qed.

Lemma X5_witness :
  ∃ b' evicted, Add [m3; m4] full2 = Ok b' ∧ evicted = 2%nat
                ∧ chan_queue (buf b') = [m3; m4] ∧ drops b' = 2.
Proof.
  assert (Hok : buffer_ok full2).
  { unfold buffer_ok, Len, chan_len. simpl. lia. }
  destruct (X5_Add_counts_what_it_evicts full2 [m3; m4] Hok)
    as (b' & evicted & Hadd & _ & _ & Hlen & _ & Hq & _ & Hd).
  exists b', evicted. split; [exact Hadd|].
  assert (He : evicted = 2%nat).
  { change (Add [m3; m4] full2)
      with (Ok (mkBuffer (mkChan 2 [m3; m4]) 2)) in Hadd.
    injection Hadd as <-. unfold Len, chan_len in Hlen. simpl in Hlen. lia. }
  subst evicted. split; [reflexivity|]. split; [exact Hq|].
  rewrite Hd; [reflexivity| |]; vm_compute; discriminate.
Defined.

Lemma Batch_keeps_buffer_ok k b :
  0 ≤ k → buffer_ok b →
  ∃ out b', Batch k b = Ok (out, b') ∧ buffer_ok b'
            ∧ chan_cap (buf b') = chan_cap (buf b) ∧ drops b' = drops b.
Proof.
  intros Hk [Hcap Hlen]. rewrite Batch_spec by done. eexists _, _.
  split; [done|]. unfold buffer_ok, Len, chan_len in *. simpl.
  rewrite length_drop. lia.
Qed.

(** X6: on a buffer that [NewBuffer(C)] made, [C > 0], calls of [Add] and
    of [Batch] with batch sizes that are not negative, in any order, all
    return, and the buffer never holds more than [C] metrics. *)
Theorem X6_Add_and_Batch_in_any_order (C : Z) (b0 : Buffer) (ops : list bufop) :
  NewBuffer C = Ok b0 → 0 < C → nonneg_batches ops →
  ∃ b, run_ops ops b0 = Ok b
       ∧ chan_cap (buf b) = C
       ∧ 0 ≤ Len b ≤ C.
Proof.
  intros [HC ->]%NewBuffer_Ok Hpos Hops.
  assert (Hok : buffer_ok (mkBuffer (mkChan C []) 0)).
  { unfold buffer_ok, Len, chan_len. simpl. lia. }
  assert (Hc : chan_cap (buf (mkBuffer (mkChan C []) 0)) = C) by done.
  revert Hok Hc. generalize (mkBuffer (mkChan C []) 0). intros b Hok Hc.
  revert b Hok Hc. induction Hops as [|op ops Hop Hops IH]; intros b Hok Hc.
  - exists b. split; [done|]. split; [done|].
    destruct Hok. unfold Len, chan_len in *. lia.
  - destruct op as [ms|k]; simpl.
    + rewrite Add_spec by done. simpl. apply IH; [|done].
      destruct Hok as [Hcap Hlen].
      unfold buffer_ok, Len, chan_len in *. simpl.
      rewrite surviving_length by lia. lia.
    + destruct (Batch_keeps_buffer_ok k b Hop Hok)
        as (out & b' & -> & Hok' & Hc' & _).
      simpl. apply IH; [done|congruence].
Qed.

Lemma X6_witness :
  ∃ b, run_ops [OpAdd [m1; m2; m3]; OpBatch 1; OpAdd [m4]; OpBatch 0]
         (mkBuffer (mkChan 2 []) 0) = Ok b
       ∧ chan_cap (buf b) = 2.
Proof.
  destruct (X6_Add_and_Batch_in_any_order 2 (mkBuffer (mkChan 2 []) 0)
              [OpAdd [m1; m2; m3]; OpBatch 1; OpAdd [m4]; OpBatch 0])
    as (b & Hrun & Hc & _).
  - reflexivity.
  - lia.
  - repeat constructor; lia.
  - exists b. split; [exact Hrun|exact Hc].
Defined.

(** ** The running output *)


Section More_facts.

Context {O : Type} `{!telegraf.Output O}.
Implicit Types (ro : RunningOutput O) (t : list event).

Lemma refused_app t1 t2 : refused (t1 ++ t2) = refused t1 ++ refused t2.
Proof. apply omap_app. Qed.

Lemma passes_false f m :
  passes f m = false ↔ IsActive f = true ∧ ShouldMetricPass f m = false.
Proof.
  unfold passes. destruct (IsActive f), (ShouldMetricPass f m); simpl;
    split; try done; by intros [? ?].
Qed.

Lemma run_AddMetric_passes m ro :
  let f := OutputConfig_Filter (Config ro) in
  run (AddMetric m) ro =
    if passes f m then run (AddMetric_buffer (filtered_metric f m)) ro
    else Ok (tt, ro, []).
Proof.
  intros f. rewrite run_AddMetric. fold f. unfold passes.
  by destruct (IsActive f && negb (ShouldMetricPass f m)).
Qed.

(** One call of [AddMetric_buffer]: what went to the output and what is
    left in the primary buffer is the old queue and the metric. *)
Lemma AddMetric_buffer_accounting m ro :
  stage_ok ro →
  ∃ ro' t,
    run (AddMetric_buffer m) ro = Ok (tt, ro', t)
    ∧ stage_ok ro'
    ∧ Config ro' = Config ro
    ∧ MetricBatchSize ro' = MetricBatchSize ro
    ∧ concat (output_writes t) ++ chan_queue (buf (metrics ro'))
      = chan_queue (buf (metrics ro)) ++ [m]
    ∧ Forall (λ b, Z.of_nat (length b) = MetricBatchSize ro) (output_writes t).
Proof.
  intros Hok.
  destruct (AddMetric_buffer_ok m ro Hok)
    as (ro' & t & Hrun & Hok' & _ & Hc & Hsz & _).
  exists ro', t. do 4 (split; [done|]).
  pose proof Hok as (Hcap & Hbs & Hlen & _).
  destruct (decide (Len (metrics ro) + 1 < MetricBatchSize ro)) as [Hroom|Hfull].
  - rewrite AddMetric_buffer_room in Hrun by done.
    injection Hrun as <- <-. simpl. split; [done|constructor].
  - assert (Hfull' : Len (metrics ro) + 1 = MetricBatchSize ro) by lia.
    assert (Hb : Z.of_nat (length (chan_queue (buf (metrics ro)) ++ [m]))
                 = MetricBatchSize ro).
    { rewrite length_app. unfold Len, chan_len in *. simpl. lia. }
    destruct (telegraf.Write (Output ro) (chan_queue (buf (metrics ro)) ++ [m]))
      as [o [e|]] eqn:HW.
    + rewrite (AddMetric_buffer_batch_failed m ro o e) in Hrun by done.
      injection Hrun as <- <-. simpl. rewrite !app_nil_r.
      split; [done|]. by repeat constructor.
    + rewrite (AddMetric_buffer_batch_sent m ro o) in Hrun by done.
      injection Hrun as <- <-.
      destruct (Quiet ro); simpl; rewrite !app_nil_r;
        (split; [done|]; by repeat constructor).
Qed.

Lemma AddMetrics_accounting ms : ∀ ro,
  stage_ok ro →
  ∃ ro' t,
    run (AddMetrics ms) ro = Ok (tt, ro', t)
    ∧ stage_ok ro'
    ∧ Config ro' = Config ro
    ∧ MetricBatchSize ro' = MetricBatchSize ro
    ∧ concat (output_writes t) ++ chan_queue (buf (metrics ro'))
      = chan_queue (buf (metrics ro))
        ++ admitted (OutputConfig_Filter (Config ro)) ms
    ∧ Forall (λ b, Z.of_nat (length b) = MetricBatchSize ro) (output_writes t).
Proof.
  induction ms as [|m ms IH]; intros ro Hok.
  - exists ro, []. unfold admitted. simpl. rewrite app_nil_r.
    do 5 (split; [done|]). constructor.
  - set (f := OutputConfig_Filter (Config ro)).
    assert (∃ ro1 t1,
      run (AddMetric m) ro = Ok (tt, ro1, t1)
      ∧ stage_ok ro1 ∧ Config ro1 = Config ro
      ∧ MetricBatchSize ro1 = MetricBatchSize ro
      ∧ concat (output_writes t1) ++ chan_queue (buf (metrics ro1))
        = chan_queue (buf (metrics ro)) ++ admitted f [m]
      ∧ Forall (λ b, Z.of_nat (length b) = MetricBatchSize ro) (output_writes t1))
      as (ro1 & t1 & Hrun1 & Hok1 & Hc1 & Hsz1 & Hacc1 & Hall1).
    { rewrite run_AddMetric_passes. fold f. unfold admitted.
      destruct (passes f m) eqn:Hp.
      - rewrite filter_cons_True by done. simpl.
        apply AddMetric_buffer_accounting. done.
      - rewrite filter_cons_False by (by rewrite Hp). simpl.
        exists ro, []. simpl. rewrite app_nil_r.
        do 5 (split; [done|]). constructor. }
    destruct (IH ro1 Hok1) as (ro2 & t2 & Hrun2 & Hok2 & Hc2 & Hsz2 & Hacc2 & Hall2).
    exists ro2, (t1 ++ t2). cbn [AddMetrics].
    rewrite (run_bind_Ok _ _ _ _ _ _ Hrun1), Hrun2. simpl.
    split; [done|]. split; [done|]. split; [congruence|]. split; [congruence|].
    rewrite output_writes_app, concat_app. split.
    + rewrite <- app_assoc, Hacc2, Hc1. fold f.
      rewrite app_assoc, Hacc1, <- app_assoc. f_equal.
      unfold admitted. change (m :: ms) with ([m] ++ ms).
      by rewrite filter_app, fmap_app.
    + apply Forall_app. split; [done|]. by rewrite <- Hsz1.
Qed.

End More_facts.

(** X8: the write primitive never touches a buffer or the configuration,
    calls the output once for a batch that is not empty and not at all for an
    empty one, and logs one line, with the number of metrics and the name,
    exactly when the output took a batch and [Quiet] is off. *)
Theorem X8_write_calls_once_and_logs_on_success {O : Type} `{!telegraf.Output O}
    (ro : RunningOutput O) (ms : list Metric) :
  ∃ err ro' t,
    run (write ms) ro = Ok (err, ro', t)
    ∧ metrics ro' = metrics ro ∧ failMetrics ro' = failMetrics ro
    ∧ Config ro' = Config ro ∧ Quiet ro' = Quiet ro ∧ Name ro' = Name ro
    ∧ MetricBatchSize ro' = MetricBatchSize ro
    ∧ MetricBufferLimit ro' = MetricBufferLimit ro
    ∧ output_writes t = (if decide (ms = []) then [] else [ms])
    ∧ logged t =
        (if decide (ms ≠ [] ∧ err = None ∧ Quiet ro = false)
         then [(Z.of_nat (length ms), Name ro)] else [])
    ∧ (ms ≠ [] → (Output ro', err) = telegraf.Write (Output ro) ms).
Proof.
  destruct (decide (ms = [])) as [->|Hne].
  - exists None, ro, []. rewrite run_write_nil.
    rewrite decide_False by (by intros [? _]). repeat split; done.
  - rewrite run_write_cons by done. eexists _, _, _. split; [done|].
    simpl_ro. do 7 (split; [done|]).
    destruct (telegraf.Write (Output ro) ms) as [o [e|]]; simpl.
    + rewrite decide_False by (by intros (_ & ? & _)). done.
    + destruct (Quiet ro); simpl.
      * rewrite decide_False by (by intros (_ & _ & ?)). done.
      * rewrite decide_True by done. done.
Qed.

(** X9: a metric that passes the filter and does not complete a batch is
    put at the tail of the primary buffer and that is all: the output is not
    called, nothing is logged, the failed metrics and every counter are as
    before.  Without tag rules the metric is buffered as it is. *)
Theorem X9_AddMetric_below_a_batch_only_buffers {O : Type} `{!telegraf.Output O}
    (ro : RunningOutput O) (metric : Metric) :
  let f := OutputConfig_Filter (Config ro) in
  stage_ok ro →
  passes f metric = true →
  Len (metrics ro) + 1 < MetricBatchSize ro →
  ∃ ro',
    run (AddMetric metric) ro
      = Ok (tt, ro', [EvAdd Primary [filtered_metric f metric]])
    ∧ chan_queue (buf (metrics ro'))
      = chan_queue (buf (metrics ro)) ++ [filtered_metric f metric]
    ∧ drops (metrics ro') = drops (metrics ro)
    ∧ failMetrics ro' = failMetrics ro
    ∧ Output ro' = Output ro
    ∧ (TagExclude f = [] → TagInclude f = [] → filtered_metric f metric = metric).
Proof.
  intros f Hok Hp Hroom. rewrite run_AddMetric_passes. fold f. rewrite Hp.
  rewrite AddMetric_buffer_room by done. eexists. split; [done|].
  simpl. do 4 (split; [done|]).
  intros He Hi. unfold filtered_metric. by rewrite He, Hi.
Qed.

Lemma X9_witness :
  ∃ ro', run (AddMetric m1) (stage_of no_filter 2 4 [] [m3])
         = Ok (tt, ro', [EvAdd Primary [m1]])
         ∧ chan_queue (buf (metrics ro')) = [m1].
Proof.
  destruct (X9_AddMetric_below_a_batch_only_buffers
              (stage_of no_filter 2 4 [] [m3]) m1)
    as (ro' & Hrun & Hq & _).
  - apply stage_of_ok; simpl; lia.
  - reflexivity.
  - reflexivity.
  - exists ro'. split; [exact Hrun|exact Hq].
Defined.

(** X10: a metric that completes a batch which the output takes: the output
    is called once, with the whole primary queue and the metric at its end;
    the primary buffer is empty afterwards and the failed metrics are as
    before. *)
Theorem X10_AddMetric_sends_a_full_batch {O : Type} `{!telegraf.Output O}
    (ro : RunningOutput O) (metric : Metric) (o : O) :
  let f := OutputConfig_Filter (Config ro) in
  let batch := chan_queue (buf (metrics ro)) ++ [filtered_metric f metric] in
  stage_ok ro →
  passes f metric = true →
  Len (metrics ro) + 1 = MetricBatchSize ro →
  telegraf.Write (Output ro) batch = (o, None) →
  ∃ ro' t,
    run (AddMetric metric) ro = Ok (tt, ro', t)
    ∧ output_writes t = [batch]
    ∧ refused t = []
    ∧ logged t = (if Quiet ro then [] else [(MetricBatchSize ro, Name ro)])
    ∧ chan_queue (buf (metrics ro')) = []
    ∧ drops (metrics ro') = drops (metrics ro)
    ∧ failMetrics ro' = failMetrics ro
    ∧ Output ro' = o.
Proof.
  intros f batch Hok Hp Hfull HW. rewrite run_AddMetric_passes. fold f.
  rewrite Hp. rewrite (AddMetric_buffer_batch_sent _ ro o) by done.
  fold batch. eexists _, _. split; [done|].
  assert (Hb : Z.of_nat (length batch) = MetricBatchSize ro).
  { unfold batch. rewrite length_app. unfold Len, chan_len in *. simpl. lia. }
  rewrite Hb. destruct (Quiet ro); simpl; repeat split; done.
Qed.

Lemma X10_witness :
  ∃ ro' t, run (AddMetric m2) (scripted_stage [] 2 4 [m1] [m3])
           = Ok (tt, ro', t)
           ∧ output_writes t = [[m1; m2]]
           ∧ chan_queue (buf (metrics ro')) = [].
Proof.
  destruct (X10_AddMetric_sends_a_full_batch
              (scripted_stage [] 2 4 [m1] [m3]) m2 [])
    as (ro' & t & Hrun & Hw & _ & _ & Hq & _).
  - unfold stage_ok, Len, chan_len. simpl. lia.
  - reflexivity.
  - reflexivity.
  - reflexivity.
  - exists ro', t. split; [exact Hrun|]. split; [exact Hw|exact Hq].
Defined.

(** X11: a metric that completes a batch which the output refuses, while
    the buffer of failed metrics has room for the batch: the batch goes to
    the tail of the failed metrics in its order, nothing is evicted or
    counted as dropped, and the primary buffer is empty. *)
Theorem X11_AddMetric_keeps_a_refused_batch {O : Type} `{!telegraf.Output O}
    (ro : RunningOutput O) (metric : Metric) (o : O) (e : error) :
  let f := OutputConfig_Filter (Config ro) in
  let batch := chan_queue (buf (metrics ro)) ++ [filtered_metric f metric] in
  stage_ok ro →
  passes f metric = true →
  Len (metrics ro) + 1 = MetricBatchSize ro →
  Len (failMetrics ro) + MetricBatchSize ro ≤ MetricBufferLimit ro →
  telegraf.Write (Output ro) batch = (o, Some e) →
  ∃ ro' t,
    run (AddMetric metric) ro = Ok (tt, ro', t)
    ∧ output_writes t = [batch]
    ∧ refused t = [batch]
    ∧ logged t = []
    ∧ chan_queue (buf (metrics ro')) = []
    ∧ chan_queue (buf (failMetrics ro'))
      = chan_queue (buf (failMetrics ro)) ++ batch
    ∧ drops (failMetrics ro') = drops (failMetrics ro)
    ∧ drops (metrics ro') = drops (metrics ro).
Proof.
  intros f batch Hok Hp Hfull Hroom HW. rewrite run_AddMetric_passes. fold f.
  rewrite Hp. rewrite (AddMetric_buffer_batch_failed _ ro o e) by done.
  fold batch. eexists _, _. split; [done|]. simpl_ro.
  pose proof Hok as (Hcap & Hbs & Hlen & Hfcap & Hfl & Hflen).
  assert (Hb : Z.of_nat (length batch) = MetricBatchSize ro).
  { unfold batch. rewrite length_app. unfold Len, chan_len in *. simpl. lia. }
  unfold Len, chan_len in Hroom.
  rewrite surviving_all by (rewrite length_app; lia).
  rewrite evictions_none by lia. simpl. repeat split; done.
Qed.

Lemma X11_witness :
  ∃ ro' t, run (AddMetric m2) (stage_of no_filter 2 4 [m1] [m3])
           = Ok (tt, ro', t)
           ∧ chan_queue (buf (failMetrics ro')) = [m3; m1; m2]
           ∧ drops (failMetrics ro') = 0.
Proof.
  destruct (X11_AddMetric_keeps_a_refused_batch
              (stage_of no_filter 2 4 [m1] [m3]) m2 Failing "unreachable"%string)
    as (ro' & t & Hrun & _ & _ & _ & _ & Hq & Hd & _).
  - apply stage_of_ok; simpl; lia.
  - reflexivity.
  - reflexivity.
  - unfold Len, chan_len. simpl. lia.
  - reflexivity.
  - exists ro', t. split; [exact Hrun|]. split; [exact Hq|exact Hd].
Defined.

(** X12: calls of [AddMetric] one after the other neither lose nor reorder
    a metric on its way to the output: the batches handed to the output, one
    after the other, followed by what is left in the primary buffer, are the
    old primary queue followed by the metrics that passed the filter (with
    their tags filtered), in the order of the calls; and every batch handed
    to the output has exactly the batch size. *)
Theorem X12_AddMetric_batches_in_order {O : Type} `{!telegraf.Output O}
    (ro : RunningOutput O) (ms : list Metric) :
  stage_ok ro →
  ∃ ro' t,
    run (AddMetrics ms) ro = Ok (tt, ro', t)
    ∧ concat (output_writes t) ++ chan_queue (buf (metrics ro'))
      = chan_queue (buf (metrics ro))
        ++ admitted (OutputConfig_Filter (Config ro)) ms
    ∧ Forall (λ b, Z.of_nat (length b) = MetricBatchSize ro) (output_writes t).
Proof.
  intros Hok.
  destruct (AddMetrics_accounting ms ro Hok)
    as (ro' & t & Hrun & _ & _ & _ & Hacc & Hall).
  by exists ro', t.
Qed.

Lemma X12_witness :
  ∃ ro' t, run (AddMetrics [m1; m2; m3]) (stage_of exclude_host 2 4 [] [])
           = Ok (tt, ro', t)
           ∧ Forall (λ b, Z.of_nat (length b) = 2) (output_writes t).
Proof.
  destruct (X12_AddMetric_batches_in_order
              (stage_of exclude_host 2 4 [] []) [m1; m2; m3])
    as (ro' & t & Hrun & _ & Hall).
  - apply stage_of_ok; simpl; lia.
  - exists ro', t. split; [exact Hrun|exact Hall].
Defined.

Section Write_accounting.

Context {O : Type} `{!telegraf.Output O}.
Implicit Types (ro : RunningOutput O) (t : list event).

Lemma refused_sublist t : refused t `sublist_of` output_writes t.
Proof.
  induction t as [|ev t IH]; [done|].
  destruct ev as [| |b [e|]|]; simpl; try done.
  - by apply sublist_skip.
  - by apply sublist_cons.
Qed.

(** One round of the loop of [Write]: the batch is the front of the failed
    metrics; it went to the output, unless it is empty, and is back at the
    tail when the output refused it. *)
Lemma run_retry_round_exact k ro :
  0 ≤ k ≤ Len (failMetrics ro) →
  buffer_ok (failMetrics ro) →
  let fq := chan_queue (buf (failMetrics ro)) in
  ∃ ro' t,
    run (batch ← call_Batch Failed k;
         err ← write batch;
         match err with
         | Some _ => call_Add Failed batch
         | None => mret tt
         end) ro = Ok (tt, ro', t)
    ∧ retry_post ro ro' t
    ∧ concat (output_writes t) = take (Z.to_nat k) fq
    ∧ chan_queue (buf (failMetrics ro'))
      = drop (Z.to_nat k) fq ++ concat (refused t)
    ∧ drops (failMetrics ro') = drops (failMetrics ro)
    ∧ sink_answers O t.
Proof.
  intros Hk Hok fq.
  destruct (run_retry_round k ro Hk Hok)
    as (ro' & t & out0 & Hrun & Hpost & _).
  exists ro', t. split; [done|]. split; [done|].
  pose proof Hok as [Hcap Hlen].
  erewrite run_bind_Ok in Hrun; [|apply run_call_Batch; lia].
  simpl_ro. replace (Z.to_nat (Z.min _ k)) with (Z.to_nat k) in Hrun by lia.
  fold fq in Hrun.
  assert (Hout : Z.of_nat (length (take (Z.to_nat k) fq)) = k).
  { rewrite length_take. unfold fq, Len, chan_len in *. lia. }
  destruct (decide (take (Z.to_nat k) fq = [])) as [Hnil|Hne].
  - rewrite Hnil in Hrun. erewrite run_bind_Ok in Hrun; [|apply run_write_nil].
    cbv beta iota in Hrun. rewrite run_ret in Hrun. simpl in Hrun.
    injection Hrun as <- <-. simpl. rewrite Hnil, app_nil_r.
    do 3 (split; [done|]). by repeat constructor.
  - erewrite run_bind_Ok in Hrun; [|by apply run_write_cons].
    cbv beta in Hrun. simpl_ro.
    assert (Hans : ∃ o : O, (telegraf.Write (Output ro) (take (Z.to_nat k) fq)).2
                            = (telegraf.Write o (take (Z.to_nat k) fq)).2)
      by (by exists (Output ro)).
    destruct (telegraf.Write (Output ro) (take (Z.to_nat k) fq))
      as [o [e|]]; cbn [fst snd] in Hrun, Hans.
    + cbv iota in Hrun. rewrite run_call_Add_room in Hrun; simpl_ro.
      * cbn [mbind outcome_bind] in Hrun. injection Hrun as <- <-.
        simpl. rewrite !app_nil_r. do 3 (split; [done|]).
        by repeat constructor.
      * lia.
      * unfold fq, Len, chan_len in *. simpl.
        rewrite length_drop, length_take. lia.
    + cbv iota in Hrun. rewrite run_ret in Hrun.
      cbn [mbind outcome_bind] in Hrun. injection Hrun as <- <-.
      destruct (Quiet ro); simpl; rewrite !app_nil_r;
        (do 3 (split; [done|]); by repeat constructor).
Qed.

(** The loop of [Write] with [n] rounds to go, when the failed metrics are
    [U ++ R] and the rounds to go take [U] in all. *)
Lemma run_Write_loop_exact (n : nat) :
  ∀ (s : nat) ro (nBatches bufLen size : Z) (U R : list Metric),
  nBatches = Z.of_nat s + Z.of_nat n → nBatches ≤ GoInt.max_int →
  MetricBatchSize ro = size → 0 < size → 0 ≤ bufLen →
  buffer_ok (failMetrics ro) →
  chan_queue (buf (failMetrics ro)) = U ++ R →
  Z.of_nat (length U) =
    match n with
    | 0%nat => 0
    | S n' => Z.of_nat n' * size + Z.rem bufLen size
    end →
  ∃ ro' t,
    run (Write_loop (Z.of_nat <$> seq s n) nBatches bufLen size) ro
      = Ok (tt, ro', t)
    ∧ retry_post ro ro' t
    ∧ concat (output_writes t) = U
    ∧ chan_queue (buf (failMetrics ro')) = R ++ concat (refused t)
    ∧ drops (failMetrics ro') = drops (failMetrics ro)
    ∧ sink_answers O t.
Proof.
  induction n as [|n IH];
    intros s ro nBatches bufLen size U R HnB Hmax Hsz Hpos Hbl Hok Hq HU.
  - destruct U; [|simpl in HU; lia]. simpl in Hq.
    exists ro, []. simpl. rewrite app_nil_r.
    split; [done|]. split; [by apply retry_post_refl|].
    do 3 (split; [done|]). constructor.
  - assert (Hsub : GoInt.sub nBatches 1 = nBatches - 1).
    { unfold GoInt.sub. apply wrap_in_range.
      unfold GoInt.in_range, GoInt.min_int, GoInt.max_int in *. lia. }
    assert (Hrem : 0 ≤ Z.rem bufLen size < size).
    { apply Z.rem_bound_pos; lia. }
    assert (HlenU : Z.of_nat (length U) ≤ Len (failMetrics ro)).
    { unfold Len, chan_len. rewrite Hq, length_app. lia. }
    cbn [seq fmap list_fmap Write_loop]. rewrite Hsub.
    destruct (decide (n = 0%nat)) as [->|Hn].
    + rewrite bool_decide_eq_true_2 by lia.
      erewrite run_bind_Ok; last first.
      { rewrite run_gets_bind. rewrite Hsz. unfold rem. cbn [run].
        rewrite bool_decide_eq_false_2 by lia. done. }
      cbv beta.
      destruct (run_retry_round_exact (Z.rem bufLen size) ro)
        as (ro1 & t1 & Hrun & Hpost & Hw & Hq1 & Hd1 & Ha1); [lia|done|].
      erewrite run_bind_Ok; [|exact Hrun].
      cbv beta. cbn [seq fmap list_fmap Write_loop]. rewrite run_ret. simpl.
      eexists _, _. split; [done|]. rewrite app_nil_r.
      split; [done|]. rewrite Hw, Hq1, Hq.
      replace (Z.to_nat (Z.rem bufLen size)) with (length U) by lia.
      rewrite take_app_length, drop_app_length. done.
    + rewrite bool_decide_eq_false_2 by lia.
      erewrite run_bind_Ok; [|apply run_ret]. cbv beta.
      assert (0 ≤ (Z.of_nat n - 1) * size) by nia.
      destruct (run_retry_round_exact size ro)
        as (ro1 & t1 & Hrun & Hpost & Hw & Hq1 & Hd1 & Ha1); [lia|done|].
      erewrite run_bind_Ok; [|exact Hrun]. cbv beta.
      pose proof Hpost as (_ & Hsz1 & _ & _ & Hok1 & _).
      rewrite Hq in Hw, Hq1.
      rewrite take_app_le in Hw by lia.
      rewrite drop_app_le in Hq1 by lia.
      destruct (IH (S s) ro1 nBatches bufLen size
                  (drop (Z.to_nat size) U) (R ++ concat (refused t1)))
        as (ro2 & t2 & Hrun2 & Hpost2 & Hw2 & Hq2 & Hd2 & Ha2); try done; try lia.
      { by rewrite Hq1, app_assoc. }
      { rewrite length_drop. destruct n as [|n']; [done|]. lia. }
      rewrite Hrun2. simpl.
      eexists _, _. split; [done|].
      split; [by eapply retry_post_trans|].
      rewrite output_writes_app, refused_app, !concat_app, Hw, Hw2, Hq2.
      rewrite take_drop, <- app_assoc. split; [done|]. split; [done|].
      split; [congruence|by apply Forall_app].
Qed.

(** The first part of [Write]: every failed metric went to the output once,
    oldest first, and the batches that the output refused are what is left,
    in their order; nothing was dropped. *)
Lemma run_Write_failed_exact ro :
  stage_ok ro →
  ∃ ro' t,
    run Write_failed ro = Ok (tt, ro', t)
    ∧ retry_post ro ro' t
    ∧ concat (output_writes t) = chan_queue (buf (failMetrics ro))
    ∧ chan_queue (buf (failMetrics ro')) = concat (refused t)
    ∧ drops (failMetrics ro') = drops (failMetrics ro)
    ∧ sink_answers O t.
Proof.
  intros Hok. pose proof Hok as (Hcap & Hsz & Hlen & Hfcap & Hfsz & Hflen).
  assert (Hokf : buffer_ok (failMetrics ro)) by (unfold buffer_ok; lia).
  unfold Write_failed. rewrite run_gets_bind. unfold IsEmpty.
  fold (Len (failMetrics ro)).
  destruct (decide (0 < Len (failMetrics ro))) as [Hne|He].
  - set (failLen := Len (failMetrics ro)) in *.
    set (size := MetricBatchSize ro) in *.
    rewrite bool_decide_eq_false_2 by lia. cbn [negb].
    rewrite !run_gets_bind. fold failLen size.
    assert (Hq : Z.quot failLen size = failLen `div` size)
      by (apply Z.quot_div_nonneg; lia).
    assert (Hr : Z.rem failLen size = failLen `mod` size)
      by (apply Z.rem_mod_nonneg; lia).
    assert (Hdiv : 0 ≤ failLen `div` size ≤ failLen).
    { split; [apply Z.div_pos; lia|]. apply Z.div_le_upper_bound; nia. }
    erewrite run_bind_Ok; last first.
    { unfold quo. cbn [run]. rewrite bool_decide_eq_false_2 by lia.
      rewrite Hq, wrap_in_range; [done|].
      unfold GoInt.in_range, GoInt.min_int, GoInt.max_int. lia. }
    cbv beta zeta. unfold GoInt.add. rewrite wrap_in_range; last first.
    { unfold GoInt.in_range, GoInt.min_int, GoInt.max_int. lia. }
    unfold indices.
    destruct (run_Write_loop_exact (Z.to_nat (failLen `div` size + 1)) 0 ro
                (failLen `div` size + 1) failLen size
                (chan_queue (buf (failMetrics ro))) [])
      as (ro' & t & Hrun & Hpost & Hw & Hq' & Hd & Ha); try done; try lia.
    { unfold GoInt.max_int. lia. }
    { by rewrite app_nil_r. }
    { replace (Z.to_nat (failLen `div` size + 1))
        with (S (Z.to_nat (failLen `div` size))) by lia.
      rewrite Hr. pose proof (Z.div_mod failLen size).
      unfold failLen, Len, chan_len in *. lia. }
    rewrite Hrun. simpl. by eexists _, _.
  - assert (Hz : Len (failMetrics ro) = 0) by (unfold Len, chan_len in *; lia).
    rewrite bool_decide_eq_true_2 by done. cbn [negb]. rewrite run_ret.
    exists ro, []. split; [done|]. split; [by apply retry_post_refl|].
    unfold Len, chan_len in Hz.
    destruct (chan_queue (buf (failMetrics ro))); [|simpl in Hz; lia].
    do 3 (split; [done|]). constructor.
Qed.

(** The second part of [Write]: the primary queue went to the output, unless
    it is empty, and is added to the failed metrics when the output refused
    it. *)
Lemma run_Write_metrics_exact ro :
  chan_cap (buf (metrics ro)) = MetricBatchSize ro →
  Len (metrics ro) < MetricBatchSize ro →
  buffer_ok (failMetrics ro) →
  let fb := failMetrics ro in
  ∃ err ro' t,
    run Write_metrics ro = Ok (err, ro', t)
    ∧ concat (output_writes t) = chan_queue (buf (metrics ro))
    ∧ chan_queue (buf (metrics ro')) = []
    ∧ drops (metrics ro') = drops (metrics ro)
    ∧ chan_queue (buf (failMetrics ro'))
      = surviving (chan_cap (buf fb)) (chan_queue (buf fb) ++ concat (refused t))
    ∧ drops (failMetrics ro')
      = Nat.iter (evictions (chan_cap (buf fb)) (length (chan_queue (buf fb)))
                    (length (concat (refused t))))
          GoInt.incr (drops fb)
    ∧ (err = None → refused t = [])
    ∧ (err ≠ None → refused t = [chan_queue (buf (metrics ro))])
    ∧ (chan_queue (buf (metrics ro)) = [] → err = None)
    ∧ sink_answers O t.
Proof.
  intros Hcap Hlen Hokf fb. subst fb.
  set (fb := failMetrics ro) in *.
  destruct (run_Write_metrics ro Hcap Hlen Hokf)
    as (ro' & t & Hrun & Hq & _ & _ & _ & _ & _ & _ & Hd & _).
  eexists _, ro', t. split; [exact Hrun|].
  assert (Hnone : surviving (chan_cap (buf fb)) (chan_queue (buf fb) ++ [])
                  = chan_queue (buf fb)).
  { destruct Hokf. rewrite app_nil_r.
    apply surviving_all. unfold fb, Len, chan_len in *. lia. }
  assert (Hev : evictions (chan_cap (buf fb)) (length (chan_queue (buf fb))) 0
                = 0%nat).
  { destruct Hokf. apply evictions_none. unfold fb, Len, chan_len in *. lia. }
  unfold Write_metrics in Hrun. rewrite run_gets_bind in Hrun.
  assert (0 ≤ Len (metrics ro)) by (unfold Len, chan_len; lia).
  erewrite run_bind_Ok in Hrun; [|apply run_call_Batch; lia].
  cbv beta in Hrun. simpl_ro.
  set (batch := chan_queue (buf (metrics ro))) in *.
  replace (Z.to_nat (Z.min _ _)) with (length batch) in Hrun
    by (unfold batch, Len, chan_len in *; lia).
  rewrite take_ge, drop_all in Hrun by lia.
  destruct (decide (batch = [])) as [Hnil|Hne].
  - rewrite Hnil in Hrun. erewrite run_bind_Ok in Hrun; [|apply run_write_nil].
    cbv beta iota in Hrun. rewrite run_ret in Hrun. simpl in Hrun.
    injection Hrun as <- <-. simpl. unfold fb in *. rewrite Hnone, Hev. simpl.
    do 5 (split; [done|]). split; [done|]. split; [done|].
    split; [done|]. by repeat constructor.
  - erewrite run_bind_Ok in Hrun; [|by apply run_write_cons].
    cbv beta in Hrun. simpl_ro.
    assert (Hans : ∃ o : O, (telegraf.Write (Output ro) batch).2
                            = (telegraf.Write o batch).2)
      by (by exists (Output ro)).
    destruct (telegraf.Write (Output ro) batch) as [o [e|]];
      cbn [fst snd] in Hrun, Hans |- *.
    + cbv iota in Hrun.
      erewrite run_bind_Ok in Hrun; [|by apply run_call_Add].
      cbv beta in Hrun. rewrite run_ret in Hrun. simpl_ro.
      cbn [mbind outcome_bind] in Hrun. injection Hrun as <- <-.
      simpl. unfold fb in *. rewrite !app_nil_r.
      do 5 (split; [done|]). split; [done|]. split; [done|].
      split; [done|]. by repeat constructor.
    + cbv iota in Hrun. rewrite run_ret in Hrun.
      cbn [mbind outcome_bind] in Hrun. injection Hrun as <- <-.
      destruct (Quiet ro); simpl; unfold fb in *; rewrite Hnone, Hev, ?app_nil_r;
        simpl;
        (do 5 (split; [done|]); split; [done|]; split; [done|];
         split; [done|]; by repeat constructor).
Qed.

(** [Write] as a whole, with the events of its two parts. *)
Lemma run_Write_exact ro :
  stage_ok ro →
  let L := MetricBufferLimit ro in
  ∃ err ro' t1 t2,
    run Write ro = Ok (err, ro', t1 ++ t2)
    ∧ concat (output_writes t1) = chan_queue (buf (failMetrics ro))
    ∧ concat (output_writes t2) = chan_queue (buf (metrics ro))
    ∧ (err = None → refused t2 = [])
    ∧ (err ≠ None → refused t2 = [chan_queue (buf (metrics ro))])
    ∧ (chan_queue (buf (metrics ro)) = [] → err = None)
    ∧ sink_answers O t1 ∧ sink_answers O t2
    ∧ chan_queue (buf (metrics ro')) = []
    ∧ drops (metrics ro') = drops (metrics ro)
    ∧ chan_queue (buf (failMetrics ro'))
      = surviving L (concat (refused (t1 ++ t2)))
    ∧ drops (failMetrics ro')
      = Nat.iter (length (concat (refused (t1 ++ t2))) - Z.to_nat L)
          GoInt.incr (drops (failMetrics ro)).
Proof.
  intros Hok L.
  destruct (run_Write_failed_exact ro Hok)
    as (ro1 & t1 & Hrun1 & Hpost & Hw1 & Hq1 & Hd1 & Ha1).
  destruct Hpost as (Hm & Hsz & Hbl & Hfc & Hokf & _).
  pose proof Hok as (Hcap & Hbs & Hlen & Hfcap & Hfl & Hflen).
  destruct (run_Write_metrics_exact ro1)
    as (err & ro2 & t2 & Hrun2 & Hw2 & Hq2 & Hd2 & Hfq2 & Hfd2 & He1 & He2
        & He3 & Ha2);
    [by rewrite Hm, Hsz|by rewrite Hm, Hsz|done|].
  exists err, ro2, t1, t2.
  unfold Write. rewrite (run_bind_Ok _ _ _ _ _ _ Hrun1), Hrun2. simpl.
  rewrite Hm in *. do 8 (split; [done|]). split; [done|].
  rewrite refused_app, concat_app, Hfq2, Hfd2, Hq1, Hd1, Hfc, Hfcap.
  split; [done|]. f_equal. unfold evictions. by rewrite length_app.
Qed.

Lemma refused_of_accepting t :
  (∀ (o : O) b, (telegraf.Write o b).2 = None) →
  sink_answers O t → refused t = [].
Proof.
  intros Hacc Ha. induction Ha as [|ev t Hev _ IH]; [done|].
  destruct ev as [| |b [e|]|]; simpl; try done.
  destruct Hev as [o Ho]. by rewrite Hacc in Ho.
Qed.

Lemma refused_of_refusing t :
  (∀ (o : O) b, (telegraf.Write o b).2 ≠ None) →
  sink_answers O t → refused t = output_writes t.
Proof.
  intros Href Ha. induction Ha as [|ev t Hev _ IH]; [done|].
  destruct ev as [| |b [e|]|]; simpl; try done.
  - by rewrite IH.
  - destruct Hev as [o Ho]. symmetry in Ho. by apply Href in Ho.
Qed.

Lemma run_bind_Panics {A B} (x : Stage O A) (k : A → Stage O B) ro :
  run x ro = Panics → run (x ≫= k) ro = Panics.
Proof. intros Hx. unfold mbind at 1, Stage_bind. simpl. by rewrite Hx. Qed.

End Write_accounting.

(** X13: the loop of [Write] over the failed metrics hands every failed
    metric to the output exactly once, oldest first; afterwards the buffer
    of failed metrics holds the batches that the output refused, in their
    old order, and nothing else; no metric was dropped and the primary
    buffer was not touched. *)
Theorem X13_retry_keeps_order_and_drops_nothing {O : Type} `{!telegraf.Output O}
    (ro : RunningOutput O) :
  stage_ok ro →
  ∃ ro' t,
    run Write_failed ro = Ok (tt, ro', t)
    ∧ concat (output_writes t) = chan_queue (buf (failMetrics ro))
    ∧ refused t `sublist_of` output_writes t
    ∧ chan_queue (buf (failMetrics ro')) = concat (refused t)
    ∧ drops (failMetrics ro') = drops (failMetrics ro)
    ∧ metrics ro' = metrics ro.
Proof.
  intros Hok.
  destruct (run_Write_failed_exact ro Hok)
    as (ro' & t & Hrun & Hpost & Hw & Hq & Hd & _).
  exists ro', t. split; [done|]. split; [done|].
  split; [apply refused_sublist|]. split; [done|]. split; [done|].
  by destruct Hpost as (? & _).
Qed.

Lemma X13_witness :
  ∃ ro' t,
    run Write_failed
      (scripted_stage [Some "refused"%string; None; Some "refused"%string]
         1 4 [] [m1; m2; m3]) = Ok (tt, ro', t)
    ∧ chan_queue (buf (failMetrics ro')) = concat (refused t)
    ∧ concat (output_writes t) = [m1; m2; m3].
Proof.
  destruct (X13_retry_keeps_order_and_drops_nothing
              (scripted_stage [Some "refused"%string; None; Some "refused"%string]
                 1 4 [] [m1; m2; m3]))
    as (ro' & t & Hrun & Hw & _ & Hq & _).
  - unfold stage_ok, Len, chan_len. simpl. lia.
  - exists ro', t. split; [exact Hrun|]. split; [exact Hq|exact Hw].
Defined.

(** X14: [Write] hands every buffered metric to the output exactly once:
    the failed metrics first, oldest first, then the primary queue.
    Afterwards the primary buffer is empty and the buffer of failed metrics
    holds the refused batches in their order, cut to the last [L] metrics
    ([L] the buffer limit), with one drop counted per metric that was cut. *)
Theorem X14_Write_offers_everything_once {O : Type} `{!telegraf.Output O}
    (ro : RunningOutput O) :
  stage_ok ro →
  ∃ err ro' t,
    run Write ro = Ok (err, ro', t)
    ∧ concat (output_writes t)
      = chan_queue (buf (failMetrics ro)) ++ chan_queue (buf (metrics ro))
    ∧ refused t `sublist_of` output_writes t
    ∧ chan_queue (buf (metrics ro')) = []
    ∧ drops (metrics ro') = drops (metrics ro)
    ∧ chan_queue (buf (failMetrics ro'))
      = surviving (MetricBufferLimit ro) (concat (refused t))
    ∧ drops (failMetrics ro')
      = Nat.iter (length (concat (refused t)) - Z.to_nat (MetricBufferLimit ro))
          GoInt.incr (drops (failMetrics ro)).
Proof.
  intros Hok.
  destruct (run_Write_exact ro Hok)
    as (err & ro' & t1 & t2 & Hrun & Hw1 & Hw2 & _ & _ & _ & _ & _ & Hq & Hd
        & Hfq & Hfd).
  exists err, ro', (t1 ++ t2). split; [done|].
  rewrite output_writes_app, concat_app, Hw1, Hw2. split; [done|].
  split; [rewrite <- output_writes_app; apply refused_sublist|].
  done.
Qed.

Lemma X14_witness :
  ∃ err ro' t,
    run Write (scripted_stage [None; Some "refused"%string] 2 4 [m3] [m1; m2])
      = Ok (err, ro', t)
    ∧ concat (output_writes t) = [m1; m2; m3]
    ∧ chan_queue (buf (metrics ro')) = [].
Proof.
  destruct (X14_Write_offers_everything_once
              (scripted_stage [None; Some "refused"%string] 2 4 [m3] [m1; m2]))
    as (err & ro' & t & Hrun & Hw & _ & Hq & _).
  - unfold stage_ok, Len, chan_len. simpl. lia.
  - exists err, ro', t. split; [exact Hrun|]. split; [exact Hw|exact Hq].
Defined.

(** X15: [Write] on a running output with nothing buffered returns [nil]
    and leaves everything as it is: the only call is the [Batch] on the
    primary buffer, which gives an empty batch; the output is not called and
    nothing is logged. *)
Theorem X15_Write_with_nothing_buffered {O : Type} `{!telegraf.Output O}
    (ro : RunningOutput O) :
  chan_queue (buf (metrics ro)) = [] →
  chan_queue (buf (failMetrics ro)) = [] →
  0 ≤ MetricBatchSize ro →
  run Write ro = Ok (None, ro, [EvBatch Primary (MetricBatchSize ro) []]).
Proof.
  intros Hp Hf Hsz. unfold Write.
  assert (Hrun1 : run Write_failed ro = Ok (tt, ro, [])).
  { unfold Write_failed. rewrite run_gets_bind. unfold IsEmpty, chan_len.
    rewrite Hf. simpl. done. }
  rewrite (run_bind_Ok _ _ _ _ _ _ Hrun1). cbv beta.
  unfold Write_metrics. rewrite run_gets_bind.
  erewrite run_bind_Ok; [|apply run_call_Batch; lia].
  cbv beta. simpl_ro. rewrite Hp, take_nil, drop_nil.
  erewrite run_bind_Ok; [|apply run_write_nil].
  cbv beta iota. rewrite run_ret. simpl.
  destruct ro as [? ? ? ? ? ? [[c q] d] ?]. simpl in *. by rewrite Hp.
Qed.

Lemma X15_witness :
  run Write (stage_of no_filter 2 4 [] [])
  = Ok (None, stage_of no_filter 2 4 [] [], [EvBatch Primary 2 []]).
Proof.
  apply (X15_Write_with_nothing_buffered (stage_of no_filter 2 4 [] []));
    [reflexivity|reflexivity|simpl; lia].
Defined.




(** X17: with the batch size set to 0 and failed metrics waiting, [Write]
    panics: the number of batches is computed by a division by the batch
    size. *)
Theorem X17_Write_divides_by_the_batch_size {O : Type} `{!telegraf.Output O}
    (ro : RunningOutput O) :
  MetricBatchSize ro = 0 →
  chan_queue (buf (failMetrics ro)) ≠ [] →
  run Write ro = Panics.
Proof.
  intros Hz Hne. unfold Write. apply run_bind_Panics.
  unfold Write_failed. rewrite run_gets_bind. unfold IsEmpty, chan_len.
  rewrite bool_decide_eq_false_2
    by (destruct (chan_queue (buf (failMetrics ro))); simpl; [done|lia]).
  cbn [negb]. rewrite !run_gets_bind. apply run_bind_Panics.
  rewrite Hz. done.
Qed.

Lemma X17_witness : run Write zero_batch_stage = Panics.
Proof.
  apply (X17_Write_divides_by_the_batch_size zero_batch_stage);
    [reflexivity|discriminate].
Defined.

(** X18: with an output that takes every batch, [Write] delivers all that
    is buffered, the failed metrics first, and returns [nil]; both buffers
    are empty afterwards and no drop was counted. *)
Theorem X18_Write_with_an_output_that_takes_all {O : Type} `{!telegraf.Output O}
    (ro : RunningOutput O) :
  (∀ (o : O) (b : list Metric), (telegraf.Write o b).2 = None) →
  stage_ok ro →
  ∃ ro' t,
    run Write ro = Ok (None, ro', t)
    ∧ concat (output_writes t)
      = chan_queue (buf (failMetrics ro)) ++ chan_queue (buf (metrics ro))
    ∧ chan_queue (buf (metrics ro')) = []
    ∧ chan_queue (buf (failMetrics ro')) = []
    ∧ drops (metrics ro') = drops (metrics ro)
    ∧ drops (failMetrics ro') = drops (failMetrics ro).
Proof.
  intros Hacc Hok.
  destruct (run_Write_exact ro Hok)
    as (err & ro' & t1 & t2 & Hrun & Hw1 & Hw2 & _ & He & _ & Ha1 & Ha2 & Hq
        & Hd & Hfq & Hfd).
  pose proof (refused_of_accepting t1 Hacc Ha1) as Hr1.
  pose proof (refused_of_accepting t2 Hacc Ha2) as Hr2.
  assert (err = None) as ->.
  { destruct err as [e|]; [|done].
    rewrite He in Hr2 by done. discriminate. }
  exists ro', (t1 ++ t2). split; [done|].
  rewrite output_writes_app, concat_app, Hw1, Hw2. split; [done|].
  split; [done|]. rewrite refused_app, Hr1, Hr2 in Hfq, Hfd.
  simpl in Hfq, Hfd. done.
Qed.

Lemma X18_witness :
  ∃ ro' t,
    run Write (accepting_stage 2 4 [m3] [m1; m2]) = Ok (None, ro', t)
    ∧ chan_queue (buf (failMetrics ro')) = [].
Proof.
  destruct (X18_Write_with_an_output_that_takes_all
              (accepting_stage 2 4 [m3] [m1; m2]))
    as (ro' & t & Hrun & _ & _ & Hq & _).
  - intros o b. reflexivity.
  - unfold stage_ok, Len, chan_len. simpl. lia.
  - exists ro', t. split; [exact Hrun|exact Hq].
Defined.

(** X19: with an output that refuses every batch, [Write] loses nothing
    that the buffer limit [L] does not force it to lose: afterwards the
    failed metrics are the last [L] of the old failed metrics followed by the
    primary queue, in that order, one drop is counted per metric beyond [L],
    the primary buffer is empty, and the result is [nil] exactly when the
    primary buffer was empty. *)
Theorem X19_Write_with_an_output_that_refuses_all {O : Type} `{!telegraf.Output O}
    (ro : RunningOutput O) :
  (∀ (o : O) (b : list Metric), (telegraf.Write o b).2 ≠ None) →
  stage_ok ro →
  let all := chan_queue (buf (failMetrics ro)) ++ chan_queue (buf (metrics ro)) in
  let L := MetricBufferLimit ro in
  ∃ err ro' t,
    run Write ro = Ok (err, ro', t)
    ∧ (err = None ↔ chan_queue (buf (metrics ro)) = [])
    ∧ chan_queue (buf (metrics ro')) = []
    ∧ chan_queue (buf (failMetrics ro')) = surviving L all
    ∧ drops (failMetrics ro')
      = Nat.iter (length all - Z.to_nat L) GoInt.incr (drops (failMetrics ro))
    ∧ (Z.of_nat (length all) ≤ L →
       chan_queue (buf (failMetrics ro')) = all
       ∧ drops (failMetrics ro') = drops (failMetrics ro)).
Proof.
  intros Href Hok all L.
  destruct (run_Write_exact ro Hok)
    as (err & ro' & t1 & t2 & Hrun & Hw1 & Hw2 & He1 & _ & He3 & Ha1 & Ha2 & Hq
        & Hd & Hfq & Hfd).
  pose proof (refused_of_refusing t1 Href Ha1) as Hr1.
  pose proof (refused_of_refusing t2 Href Ha2) as Hr2.
  assert (Hall : concat (refused (t1 ++ t2)) = all).
  { by rewrite refused_app, concat_app, Hr1, Hr2, Hw1, Hw2. }
  rewrite Hall in Hfq, Hfd. fold L in Hfq, Hfd.
  exists err, ro', (t1 ++ t2). split; [done|]. split.
  { split; [|done]. intros Hn. rewrite <- Hw2, <- Hr2, He1 by done. done. }
  split; [done|]. split; [done|]. split; [done|].
  intros Hfit. rewrite Hfq, Hfd. rewrite surviving_all by done.
  replace (length all - Z.to_nat L)%nat with 0%nat by lia. done.
Qed.

Lemma X19_witness :
  ∃ err ro' t,
    run Write (stage_of no_filter 2 4 [m3] [m1; m2]) = Ok (err, ro', t)
    ∧ chan_queue (buf (failMetrics ro')) = [m1; m2; m3].
Proof.
  destruct (X19_Write_with_an_output_that_refuses_all
              (stage_of no_filter 2 4 [m3] [m1; m2]))
    as (err & ro' & t & Hrun & _ & _ & _ & _ & Hfit).
  - intros o b. discriminate.
  - apply stage_of_ok; simpl; lia.
  - exists err, ro', t. split; [exact Hrun|]. apply Hfit. simpl. lia.
Defined.
